(** * Airbnb market analysis: cleaner, batch reporter and dashboard filters

  A shallow embedding of [src/clean_airbnb.py], [src/eda_airbnb.py] and
  the filter block of [src/app.py].

  Modelling conventions.
  - A pandas [DataFrame] is a list of column labels and a list of rows;
    a row is the list of its cells, in column order.  Selecting a label
    picks the first column that carries it (tables read from CSV have
    distinct labels).  Row index labels are not modelled.
  - A cell is a missing value (NaN, NaT, None), a finite number, a Python
    [str] or a timestamp.  Numbers are exact rationals: IEEE rounding and
    the infinities are outside the model.
  - Header names and cell texts are strings of 8-bit characters; case
    folding and the white-space classes are those of ASCII.
  - DataFrame objects live in a store and are handled through references:
    [df.copy()] and row selection allocate, [df[col] = ...] and
    [df.columns = ...] update in place.  Python exceptions are values of
    [exn]; a raised exception leaves the store as it was at that point.
  - What pandas computes behind [str(x)], [pd.to_datetime] is taken as an
    oracle ([PandasOracle]); no property of it is assumed unless a
    theorem says so.  [Samples] and [Binary64] give two oracles to run
    the code with; in the second, numbers are held as binary64. *)

From Stdlib Require Import Ascii String ZArith QArith Qabs Qround Lia Lqa.
From Stdlib Require Import Permutation Sorted SetoidList SetoidPermutation.
From stdpp Require Import base list strings pretty.

Set Default Proof Using "Type".

(** ** Characters and strings *)

Module Text.

Definition chars (s : string) : list ascii := list_ascii_of_string s.
Definition text (l : list ascii) : string := string_of_list_ascii l.

Definition code (c : ascii) : nat := nat_of_ascii c.

(** Python's [str.isspace] on the ASCII range, which is also what the
    regular expression class [\s] matches. *)
Definition is_space (c : ascii) : bool :=
  let n := code c in
  ((9 <=? n) && (n <=? 13)) || ((28 <=? n) && (n <=? 32)).

Definition is_upper (c : ascii) : bool :=
  let n := code c in (65 <=? n) && (n <=? 90).

Definition lower_char (c : ascii) : ascii :=
  if is_upper c then ascii_of_nat (code c + 32) else c.

(** [str.lower] *)
Definition lower (l : list ascii) : list ascii := map lower_char l.

(** leading characters of a class dropped, and both ends trimmed *)
Fixpoint lstrip_by (p : ascii -> bool) (l : list ascii) : list ascii :=
  match l with
  | c :: l' => if p c then lstrip_by p l' else l
  | [] => []
  end.

Definition strip_by (p : ascii -> bool) (l : list ascii) : list ascii :=
  rev (lstrip_by p (rev (lstrip_by p l))).

(** [str.strip] *)
Definition strip (l : list ascii) : list ascii := strip_by is_space l.

(** [re.sub(r"\s+", "_", s)]: every maximal run of white space becomes
    one underscore.  [in_run] records that the previous character was
    white space. *)
Fixpoint replace_ws_from (in_run : bool) (l : list ascii) : list ascii :=
  match l with
  | [] => []
  | c :: l' =>
      if is_space c
      then (if in_run then replace_ws_from true l'
            else "_"%char :: replace_ws_from true l')
      else c :: replace_ws_from false l'
  end.

Definition replace_ws (l : list ascii) : list ascii := replace_ws_from false l.

(** [re.sub(r"[\$,]", "", s)] *)
Definition is_currency_mark (c : ascii) : bool :=
  (Ascii.eqb c "$" || Ascii.eqb c ",")%char.

Definition remove_currency_marks (l : list ascii) : list ascii :=
  filter (fun c => is_currency_mark c = false) l.

End Text.

(** ** Decimal numerals

  The parser behind [pd.to_numeric] on a string: C white space around
  the numeral is skipped, then come an optional sign, digits with an
  optional fraction, and an optional exponent.  Everything else (the
  empty string, "nan", words) is not a number. *)

Module Numeral.
Import Text.

(** [isspace] of C on ASCII *)
Definition is_blank (c : ascii) : bool :=
  let n := code c in ((9 <=? n) && (n <=? 13)) || (n =? 32).

Definition is_digit (c : ascii) : bool :=
  let n := code c in (48 <=? n) && (n <=? 57).

Definition digit_val (c : ascii) : Z := Z.of_nat (code c - 48).

(** value of a digit string, most significant digit first *)
Fixpoint digits_from (acc : Z) (l : list ascii) : option Z :=
  match l with
  | [] => Some acc
  | c :: l' =>
      if is_digit c then digits_from (10 * acc + digit_val c) l' else None
  end.

Definition digits (l : list ascii) : option Z := digits_from 0 l.

(** split at the first character satisfying [p] *)
Fixpoint break_at (p : ascii -> bool) (l : list ascii)
  : list ascii * option (list ascii) :=
  match l with
  | [] => ([], None)
  | c :: l' =>
      if p c then ([], Some l')
      else let '(a, b) := break_at p l' in (c :: a, b)
  end.

Definition split_sign (l : list ascii) : bool * list ascii :=
  match l with
  | "-"%char :: l' => (true, l')
  | "+"%char :: l' => (false, l')
  | _ => (false, l)
  end.

Definition is_exp_mark (c : ascii) : bool :=
  (Ascii.eqb c "e" || Ascii.eqb c "E")%char.

Definition is_point (c : ascii) : bool := Ascii.eqb c "."%char.

Definition pow10 (k : Z) : Q :=
  if (0 <=? k)%Z then inject_Z (10 ^ k) else / inject_Z (10 ^ (- k)).

(** exponent part: none, or a signed non-empty digit string *)
Definition exponent (e : option (list ascii)) : option Z :=
  match e with
  | None => Some 0%Z
  | Some l =>
      let '(neg, ds) := split_sign l in
      match ds with
      | [] => None
      | _ => match digits ds with
             | Some n => Some (if neg then (- n)%Z else n)
             | None => None
             end
      end
  end.

(** mantissa: integer digits, optional point and fraction digits, at
    least one digit in all; the result is the digit string's value and
    the number of fraction digits *)
Definition mantissa (l : list ascii) : option (Z * Z) :=
  let '(ip, fp) := break_at is_point l in
  let fp := default [] fp in
  match ip ++ fp with
  | [] => None
  | ds => match digits ds with
          | Some n => Some (n, Z.of_nat (length fp))
          | None => None
          end
  end.

Definition parse_chars (l : list ascii) : option Q :=
  let '(neg, body) := split_sign (strip_by is_blank l) in
  let '(m, e) := break_at is_exp_mark body in
  match mantissa m, exponent e with
  | Some (n, k), Some x =>
      let v := (inject_Z n * pow10 (x - k))%Q in
      Some (Qred (if neg then - v else v))
  | _, _ => None
  end.

Definition parse (s : string) : option Q := parse_chars (chars s).

(** the number a digit string denotes, and the number a decimal numeral
    with integer digits [ip] and fraction digits [fp] denotes *)
Definition value (l : list ascii) : Z :=
  fold_left (fun acc c => (10 * acc + digit_val c)%Z) l 0%Z.

Definition decimal (ip fp : list ascii) : Q :=
  Qred (inject_Z (value (ip ++ fp)) / inject_Z (10 ^ Z.of_nat (length fp))).

End Numeral.

(** ** Cells, exceptions and results *)

Inductive cell : Type :=
  | NA                 (* NaN, NaT or None *)
  | Num (q : Q)        (* a finite float or an integer *)
  | Str (s : string)   (* a Python str *)
  | Time (t : Z).      (* a Timestamp, in nanoseconds *)

Inductive exn : Type :=
  | KeyError (key : string)
  | TypeError
  | AssertionError (msg : string)
  | BadRef.            (* a reference to no object: not reachable from Python *)

Inductive result (A : Type) : Type :=
  | Ok (a : A)
  | Raise (e : exn).
Arguments Ok {A} a.
Arguments Raise {A} e.

#[global] Instance result_ret : MRet result := @Ok.
#[global] Instance result_bind : MBind result := λ A B f m,
  match m with Ok a => f a | Raise e => Raise e end.

Abbreviation series := (list cell).
Abbreviation bools := (list bool).

Definition is_na (c : cell) : bool :=
  match c with NA => true | _ => false end.

Definition cell_eqb (a b : cell) : bool :=
  match a, b with
  | NA, NA => true
  | Num p, Num q => Qeq_bool p q
  | Str s, Str t => String.eqb s t
  | Time s, Time t => Z.eqb s t
  | _, _ => false
  end.

(** ** Series operations of pandas *)

Class PandasOracle : Type := {
  float_repr : Q -> string;          (* str(x) of a float *)
  time_repr : Z -> string;           (* str(x) of a Timestamp *)
  parse_time : string -> option Z;   (* date parser of pd.to_datetime *)
  time_of_number : Q -> option Z     (* pd.to_datetime of a number *)
}.

Module Series.
Section Ops.
Context `{PandasOracle}.

(** [s.astype(str)] *)
Definition astype_str_cell (c : cell) : cell :=
  match c with
  | NA => Str "nan"
  | Num q => Str (float_repr q)
  | Str s => Str s
  | Time t => Str (time_repr t)
  end.
Definition astype_str (s : series) : series := map astype_str_cell s.

(** [s.str.replace(r"[\$,]", "", regex=True)]; the [.str] methods leave
    cells that are not strings as missing *)
Definition str_replace_currency_cell (c : cell) : cell :=
  match c with
  | Str s => Str (Text.text (Text.remove_currency_marks (Text.chars s)))
  | _ => NA
  end.
Definition str_replace_currency (s : series) : series :=
  map str_replace_currency_cell s.

(** [pd.to_numeric(s, errors="coerce")] *)
Definition to_numeric_cell (c : cell) : cell :=
  match c with
  | NA => NA
  | Num q => Num q
  | Str s => match Numeral.parse s with Some q => Num q | None => NA end
  | Time t => Num (inject_Z t)
  end.
Definition to_numeric (s : series) : series := map to_numeric_cell s.

(** [pd.to_datetime(s, errors="coerce")] *)
Definition to_datetime_cell (c : cell) : cell :=
  match c with
  | NA => NA
  | Num q => match time_of_number q with Some t => Time t | None => NA end
  | Str s => match parse_time s with Some t => Time t | None => NA end
  | Time t => Time t
  end.
Definition to_datetime (s : series) : series := map to_datetime_cell s.

End Ops.

(** [s.fillna(v)] *)
Definition fillna_cell (v c : cell) : cell := if is_na c then v else c.
Definition fillna (v : cell) (s : series) : series := map (fillna_cell v) s.

(** [s.isna()] and [s.dropna()] *)
Definition isna (s : series) : bools := map is_na s.
Definition dropna (s : series) : series := filter (λ c, is_na c = false) s.

(** Comparing a cell with a number: a missing value compares false, a
    string or a timestamp raises. *)
Definition cell_ge (x : Q) (c : cell) : result bool :=
  match c with
  | NA => Ok false
  | Num q => Ok (Qle_bool x q)
  | _ => Raise TypeError
  end.
Definition cell_le (x : Q) (c : cell) : result bool :=
  match c with
  | NA => Ok false
  | Num q => Ok (Qle_bool q x)
  | _ => Raise TypeError
  end.

Fixpoint traverse {A B} (f : A -> result B) (l : list A) : result (list B) :=
  match l with
  | [] => Ok []
  | a :: l' => b ← f a; bs ← traverse f l'; mret (b :: bs)
  end.

(** [s >= x] and [s <= x] *)
Definition ge (s : series) (x : Q) : result bools := traverse (cell_ge x) s.
Definition le (s : series) (x : Q) : result bools := traverse (cell_le x) s.

(** [s.between(lo, hi)] is [(s >= lo) & (s <= hi)] *)
Definition mask_and (a b : bools) : bools := zip_with andb a b.
Definition mask_or (a b : bools) : bools := zip_with orb a b.
Definition between (s : series) (lo hi : Q) : result bools :=
  a ← ge s lo; b ← le s hi; mret (mask_and a b).

(** [s.isin(values)] *)
Definition isin (values : list cell) (s : series) : bools :=
  map (λ c, existsb (cell_eqb c) values) s.

(** [s.min()] and [s.max()] of a series without missing values: the
    empty series gives NaN, numbers give their extremum, and any other
    content ends in a TypeError (raised by the reduction on mixed
    content, or by the comparison of its result with a number). *)
Definition number (c : cell) : result Q :=
  match c with Num q => Ok q | _ => Raise TypeError end.

Definition extremum (pick : Q -> Q -> Q) (s : series) : result cell :=
  qs ← traverse number s;
  match qs with
  | [] => mret NA
  | q :: qs' => mret (Num (fold_left pick qs' q))
  end.

Definition Qmin (a b : Q) : Q := if Qle_bool a b then a else b.
Definition Qmax (a b : Q) : Q := if Qle_bool a b then b else a.
Definition min (s : series) : result cell := extremum Qmin s.
Definition max (s : series) : result cell := extremum Qmax s.

(** [s.mean()]: missing values are skipped; no value at all gives NaN *)
Definition Qsum (qs : list Q) : Q := fold_left Qplus qs 0%Q.
Definition mean (s : series) : result cell :=
  qs ← traverse number (dropna s);
  match qs with
  | [] => mret NA
  | _ => mret (Num (Qred (Qsum qs / inject_Z (Z.of_nat (length qs)))))
  end.

(** [s.count()]: the number of values that are not missing *)
Definition count (s : series) : result cell :=
  mret (Num (inject_Z (Z.of_nat (length (dropna s))))).

(** rounding to the nearest integer, halves to the even neighbour *)
Definition rint (x : Q) : Z :=
  let f := Qfloor x in
  match (x - inject_Z f ?= 1 # 2)%Q with
  | Lt => f
  | Gt => (f + 1)%Z
  | Eq => if Z.even f then f else (f + 1)%Z
  end.

(** [round(x, n)] is [rint(x * 10**n) / 10**n] *)
Definition round_q (n : nat) (q : Q) : Q :=
  let p := inject_Z (10 ^ Z.of_nat n) in
  Qred (inject_Z (rint (q * p)) / p).
Definition round_cell (n : nat) (c : cell) : cell :=
  match c with Num q => Num (round_q n q) | _ => c end.

End Series.

(** ** Tables *)

Record DataFrame : Type := {
  columns : list string;
  rows : list (list cell)
}.

Module Frame.

Fixpoint index_of (c : string) (cols : list string) : option nat :=
  match cols with
  | [] => None
  | c' :: cols' =>
      if String.eqb c c' then Some 0%nat else S <$> index_of c cols'
  end.

(** [col in df.columns] *)
Definition has (cols : list string) (c : string) : bool :=
  bool_decide (c ∈ cols).

Definition at_ (i : nat) (r : list cell) : cell := default NA (r !! i).

(** [df[col]] *)
Definition getitem (d : DataFrame) (c : string) : result series :=
  match index_of c (columns d) with
  | Some i => Ok (map (at_ i) (rows d))
  | None => Raise (KeyError c)
  end.

(** [df[col] = s], for a series with the table's index *)
Definition setitem (d : DataFrame) (c : string) (s : series) : DataFrame :=
  match index_of c (columns d) with
  | Some i =>
      {| columns := columns d;
         rows := zip_with (λ r v, <[i:=v]> r) (rows d) s |}
  | None =>
      {| columns := columns d ++ [c];
         rows := zip_with (λ r v, r ++ [v]) (rows d) s |}
  end.

(** [df[mask]]: the rows whose mask entry is [True] *)
Fixpoint select {A} (m : bools) (l : list A) : list A :=
  match m, l with
  | b :: m', a :: l' => if b then a :: select m' l' else select m' l'
  | _, _ => []
  end.

Definition getitem_mask (d : DataFrame) (m : bools) : DataFrame :=
  {| columns := columns d; rows := select m (rows d) |}.

(** [df.columns = cols] *)
Definition set_columns (d : DataFrame) (cols : list string) : DataFrame :=
  {| columns := cols; rows := rows d |}.

(** the rows selected by a test on the row *)
Definition filter_rows (p : list cell -> bool) (d : DataFrame) : DataFrame :=
  {| columns := columns d; rows := filter (λ r, p r = true) (rows d) |}.

(** the cells of a column, top to bottom; empty when there is no such
    column *)
Definition col (d : DataFrame) (c : string) : series :=
  match index_of c (columns d) with
  | Some i => map (at_ i) (rows d)
  | None => []
  end.

(** a column rewritten cell by cell; no change when there is no such
    column *)
Definition map_col (f : cell -> cell) (c : string) (d : DataFrame) : DataFrame :=
  match index_of c (columns d) with
  | Some i =>
      {| columns := columns d;
         rows := map (λ r, <[i := f (at_ i r)]> r) (rows d) |}
  | None => d
  end.

(** every row has one cell per column *)
Definition wf (d : DataFrame) : Prop :=
  Forall (λ r, length r = length (columns d)) (rows d).

End Frame.

(** ** The object store *)

Definition ref := nat.
Definition store := list DataFrame.
Definition M (A : Type) : Type := store -> result A * store.

#[global] Instance M_ret : MRet M := λ A a h, (Ok a, h).
#[global] Instance M_bind : MBind M := λ A B f m h,
  match m h with
  | (Ok a, h') => f a h'
  | (Raise e, h') => (Raise e, h')
  end.

Module Py.

Definition lift {A} (r : result A) : M A := λ h, (r, h).
Definition raise {A} (e : exn) : M A := lift (Raise e).

Definition read (r : ref) : M DataFrame := λ h,
  match h !! r with
  | Some d => (Ok d, h)
  | None => (Raise BadRef, h)
  end.

Definition alloc (d : DataFrame) : M ref := λ h, (Ok (length h), h ++ [d]).

Definition update (r : ref) (f : DataFrame -> DataFrame) : M unit := λ h,
  match h !! r with
  | Some d => (Ok tt, <[r := f d]> h)
  | None => (Raise BadRef, h)
  end.

(** [for x in l: body] *)
Fixpoint for_ {A} (l : list A) (body : A -> M unit) : M unit :=
  match l with
  | [] => mret tt
  | x :: l' => body x ;; for_ l' body
  end.

(** [assert b, msg] *)
Definition assert (b : bool) (msg : string) : M unit :=
  if b then mret tt else raise (AssertionError msg).

(** pandas calls on a table object *)
Definition copy (df : ref) : M ref := d ← read df; alloc d.
Definition columns_of (df : ref) : M (list string) :=
  d ← read df; mret (columns d).
Definition set_columns (df : ref) (cols : list string) : M unit :=
  update df (λ d, Frame.set_columns d cols).
Definition getitem (df : ref) (c : string) : M series :=
  d ← read df; lift (Frame.getitem d c).
Definition setitem (df : ref) (c : string) (s : series) : M unit :=
  update df (λ d, Frame.setitem d c s).
Definition getitem_mask (df : ref) (m : bools) : M ref :=
  d ← read df; alloc (Frame.getitem_mask d m).

End Py.

(** ** The cleaner ([src/clean_airbnb.py]) *)

Module Cleaner.
Section Steps.
Context `{PandasOracle}.

Definition normalize_name (c : string) : string :=
  Text.text (Text.replace_ws (Text.lower (Text.strip (Text.chars c)))).

Definition normalize_columns (df : ref) : M ref :=
  df ← Py.copy df;
  cs ← Py.columns_of df;
  Py.set_columns df (map normalize_name cs);;
  mret df.

Definition clean_currency_cols (df : ref) (cols : list string) : M ref :=
  df ← Py.copy df;
  Py.for_ cols (λ col,
    cs ← Py.columns_of df;
    if Frame.has cs col then
      s ← Py.getitem df col;
      Py.setitem df col (Series.str_replace_currency (Series.astype_str s));;
      s ← Py.getitem df col;
      Py.setitem df col (Series.to_numeric s)
    else mret tt);;
  mret df.

Definition parse_date_cols (df : ref) (cols : list string) : M ref :=
  df ← Py.copy df;
  Py.for_ cols (λ col,
    cs ← Py.columns_of df;
    if Frame.has cs col then
      s ← Py.getitem df col;
      Py.setitem df col (Series.to_datetime s)
    else mret tt);;
  mret df.

Definition fill_missing_values (df : ref)
    (cols_with_defaults : list (string * cell)) : M ref :=
  df ← Py.copy df;
  Py.for_ cols_with_defaults (λ '(col, default),
    cs ← Py.columns_of df;
    if Frame.has cs col then
      s ← Py.getitem df col;
      Py.setitem df col (Series.fillna default s)
    else mret tt);;
  mret df.

Definition remove_outliers_bounds (df : ref) (col : string)
    (lower upper : Q) : M ref :=
  cs ← Py.columns_of df;
  if negb (Frame.has cs col) then mret df
  else
    s ← Py.getitem df col;
    let na := Series.isna s in
    s ← Py.getitem df col;
    lo ← Py.lift (Series.ge s lower);
    s ← Py.getitem df col;
    hi ← Py.lift (Series.le s upper);
    Py.getitem_mask df (Series.mask_or na (Series.mask_and lo hi)).

Definition msg_price := "Price column has negative values".
Definition msg_reviews := "Number of reviews has negative values".
Definition msg_rpm := "Reviews per month has negative values".
Definition msg_avail_neg := "Availability 365 has negative values".
Definition msg_avail_max := "Availability 365 exceeds 365".

Definition sanity_checks (df : ref) : M unit :=
  cs ← Py.columns_of df;
  (if Frame.has cs "price" then
     s ← Py.getitem df "price";
     m ← Py.lift (Series.min (Series.dropna s));
     b ← Py.lift (Series.cell_ge 0 m);
     Py.assert b msg_price
   else mret tt);;
  cs ← Py.columns_of df;
  (if Frame.has cs "number_of_reviews" then
     s ← Py.getitem df "number_of_reviews";
     m ← Py.lift (Series.min (Series.dropna s));
     b ← Py.lift (Series.cell_ge 0 m);
     Py.assert b msg_reviews
   else mret tt);;
  cs ← Py.columns_of df;
  (if Frame.has cs "reviews_per_month" then
     s ← Py.getitem df "reviews_per_month";
     m ← Py.lift (Series.min (Series.dropna s));
     b ← Py.lift (Series.cell_ge 0 m);
     Py.assert b msg_rpm
   else mret tt);;
  cs ← Py.columns_of df;
  (if Frame.has cs "availability_365" then
     s ← Py.getitem df "availability_365";
     let s := Series.dropna s in
     m ← Py.lift (Series.min s);
     b ← Py.lift (Series.cell_ge 0 m);
     Py.assert b msg_avail_neg;;
     m ← Py.lift (Series.max s);
     b ← Py.lift (Series.cell_le 365 m);
     Py.assert b msg_avail_max
   else mret tt).

(** step 5 of [main]: the two hard-bound trims *)
Definition hard_bounds (df : ref) : M ref :=
  df ← remove_outliers_bounds df "price" 0 10000;
  remove_outliers_bounds df "availability_365" 0 365.

(** [main] between [load_raw] and the save: steps 1 to 6 *)
Definition main (df : ref) : M ref :=
  df ← normalize_columns df;
  cs ← Py.columns_of df;
  let currency_cols_present :=
    filter (λ c, Frame.has cs c = true) ["price"; "service_fee"] in
  df ← clean_currency_cols df currency_cols_present;
  df ← parse_date_cols df ["last_review"];
  let cols_with_defaults :=
    [("reviews_per_month", Num 0); ("host_identity_verified", Str "unknown")] in
  df ← fill_missing_values df cols_with_defaults;
  df ← hard_bounds df;
  sanity_checks df;;
  mret df.

End Steps.
End Cleaner.

(** ** Grouping ([df.groupby(by)[col]]) *)

Module Group.

(** a group key: one cell per grouping column *)
Definition key := list cell.

Fixpoint key_eqb (a b : key) : bool :=
  match a, b with
  | [], [] => true
  | x :: a', y :: b' => cell_eqb x y && key_eqb a' b'
  | _, _ => false
  end.

(** the order in which pandas lists group keys: numbers by value, strings
    by code points, timestamps by time; kinds in that order *)
Definition rank (c : cell) : nat :=
  match c with NA => 0 | Num _ => 1 | Str _ => 2 | Time _ => 3 end.

Definition cell_leb (a b : cell) : bool :=
  match a, b with
  | Num p, Num q => Qle_bool p q
  | Str s, Str t => String.leb s t
  | Time s, Time t => (s <=? t)%Z
  | _, _ => rank a <=? rank b
  end.

Fixpoint key_leb (a b : key) : bool :=
  match a, b with
  | [], _ => true
  | _ :: _, [] => false
  | x :: a', y :: b' =>
      if cell_eqb x y then key_leb a' b' else cell_leb x y
  end.

(** stable insertion sort; [before x y] says that [x] may stand in front
    of [y] *)
Fixpoint insert {A} (before : A -> A -> bool) (x : A) (l : list A) : list A :=
  match l with
  | [] => [x]
  | y :: l' => if before x y then x :: l else y :: insert before x l'
  end.

Definition sort {A} (before : A -> A -> bool) (l : list A) : list A :=
  foldr (insert before) [] l.

(** the first occurrence of every key *)
Fixpoint dedupe (l : list key) : list key :=
  match l with
  | [] => []
  | k :: l' => k :: filter (λ k', key_eqb k k' = false) (dedupe l')
  end.

Definition has_na (k : key) : bool := existsb is_na k.

(** rows with a missing key cell belong to no group *)
Definition groups (row_keys : list key) : list key :=
  sort key_leb (dedupe (filter (λ k, has_na k = false) row_keys)).

Definition members (k : key) (row_keys : list key) (vs : series) : series :=
  Frame.select (map (key_eqb k) row_keys) vs.

Definition row_keys (d : DataFrame) (idx : list nat) : list key :=
  map (λ r, map (λ i, Frame.at_ i r) idx) (rows d).

Definition index_of_col (d : DataFrame) (c : string) : result nat :=
  match Frame.index_of c (columns d) with
  | Some i => Ok i
  | None => Raise (KeyError c)
  end.

(** [df.groupby(by)[col].agg()]: one entry per group, keys ascending *)
Definition agg (f : series -> result cell) (d : DataFrame)
    (by_ : list string) (c : string) : result (list (key * cell)) :=
  idx ← Series.traverse (index_of_col d) by_;
  vs ← Frame.getitem d c;
  let rk := row_keys d idx in
  Series.traverse (λ k, v ← f (members k rk vs); mret (k, v)) (groups rk).

(** descending order of values, missing values last *)
Definition value_before (a b : cell) : bool :=
  match a, b with
  | _, NA => true
  | NA, _ => false
  | Num p, Num q => Qle_bool q p
  | _, _ => true
  end.

(** [s.sort_values(ascending=False)] *)
Definition sort_values_desc (g : list (key * cell)) : list (key * cell) :=
  sort (λ a b, value_before a.2 b.2) g.

(** [s.round(n)] *)
Definition round (n : nat) (g : list (key * cell)) : list (key * cell) :=
  map (λ e, (e.1, Series.round_cell n e.2)) g.

(** [s.head(n)] is [s.iloc[:n]] *)
Definition head {A} (n : Z) (l : list A) : list A :=
  if (0 <=? n)%Z then take (Z.to_nat n) l
  else take (length l - Z.to_nat (- n)) l.

End Group.

(** ** The batch reporter ([src/eda_airbnb.py])

  The summaries are printed and written to CSV files as well; only the
  returned series is modelled. *)

Module Reporter.

Definition issubset (need cols : list string) : bool :=
  forallb (Frame.has cols) need.

Definition avg_price_by_neighbourhood_group (df : DataFrame)
  : result (list (Group.key * cell)) :=
  if issubset ["neighbourhood_group"; "price"] (columns df) then
    g ← Group.agg Series.mean df ["neighbourhood_group"] "price";
    mret (Group.round 2 (Group.sort_values_desc g))
  else mret [].

Definition top_hosts (df : DataFrame) (n : Z)
  : result (list (Group.key * cell)) :=
  let need := ["host_id"; "host_name"; "id"] in
  if issubset need (columns df) then
    t ← Group.agg Series.count df ["host_id"; "host_name"] "id";
    mret (Group.head n (Group.sort_values_desc t))
  else mret [].

(** the default of the parameter [n] *)
Definition top_hosts_default_n : Z := 10.

End Reporter.

(** ** The dashboard's loader and filter block ([src/app.py], lines 24 to 109)

  [load_data] is modelled from the table that the file reader returned.
  A widget returns what the user chose. *)

Module Dashboard.

Definition wanted : list string :=
  ["price"; "neighbourhood_group"; "room_type"; "availability_365";
   "number_of_reviews"; "reviews_per_month"; "lat"; "long"; "id";
   "host_id"; "host_name"].

Definition lower_name (c : string) : string :=
  Text.text (Text.lower (Text.chars c)).

(** [cols = {c.lower(): c for c in df.columns}] and [cols.get(want)]: a
    later column overwrites an earlier one with the same lower-case name *)
Definition cols_get (cols : list string) (want : string) : option string :=
  last (filter (λ c, lower_name c = want) cols).

Definition rename_map (cols : list string) : list (string * string) :=
  omap (λ want,
          if negb (Frame.has cols want)
          then c ← cols_get cols want; Some (c, want)
          else None)
       wanted.

Fixpoint renamed (m : list (string * string)) (c : string) : string :=
  match m with
  | [] => c
  | (old, new) :: m' => if String.eqb old c then new else renamed m' c
  end.

(** [df.dropna(subset=essential)] *)
Definition dropna_subset (subset : list string) (d : DataFrame) : DataFrame :=
  Frame.filter_rows
    (λ r, forallb (λ c, match Frame.index_of c (columns d) with
                        | Some i => negb (is_na (Frame.at_ i r))
                        | None => true
                        end) subset) d.

Definition load_data (file : DataFrame) : DataFrame :=
  let df := file in
  let df := Frame.set_columns df
              (map (renamed (rename_map (columns df))) (columns df)) in
  let df :=
    foldl (λ df c, Frame.map_col Series.to_numeric_cell c df) df
      ["price"; "availability_365"; "number_of_reviews";
       "reviews_per_month"; "lat"; "long"] in
  let essential :=
    filter (λ c, Frame.has (columns df) c = true)
      ["price"; "room_type"; "neighbourhood_group"; "lat"; "long"] in
  dropna_subset essential df.

(** [df.empty], on which the script stops *)
Definition empty (d : DataFrame) : bool :=
  match columns d, rows d with
  | [], _ | _, [] => true
  | _, _ => false
  end.

Record widgets : Type := {
  ng_choice : list cell;       (* multiselect "Neighbourhood group" *)
  rt_choice : list cell;       (* multiselect "Room type" *)
  price_choice : Q * Q;        (* slider "Price range" *)
  avail_choice : Q * Q;        (* slider "Availability (days/year)" *)
  rpm_choice : Q * Q           (* slider "Reviews per month" *)
}.

(** [m & x] where [x] is a mask or the scalar [True] *)
Definition and_opt (m : bools) (x : option bools) : bools :=
  match x with Some m' => Series.mask_and m m' | None => m end.

Section Script.
Variable df : DataFrame.
Variable w : widgets.

Definition selected_ng : option (list cell) :=
  if Frame.has (columns df) "neighbourhood_group"
  then Some (ng_choice w) else None.

Definition selected_rt : option (list cell) :=
  if Frame.has (columns df) "room_type"
  then Some (rt_choice w) else None.

Definition price_range : Q * Q := price_choice w.

Definition avail_range : Q * Q :=
  if Frame.has (columns df) "availability_365"
  then avail_choice w else (0, 365)%Q.

Definition rpm_range : Q * Q :=
  if Frame.has (columns df) "reviews_per_month"
  then rpm_choice w else (0, 999)%Q.

Definition mask : result bools :=
  s ← Frame.getitem df "price";
  a ← Series.between s price_range.1 price_range.2;
  b ← (if Frame.has (columns df) "availability_365" then
         s ← Frame.getitem df "availability_365";
         m ← Series.between s avail_range.1 avail_range.2;
         mret (Some m)
       else mret None);
  c ← (if Frame.has (columns df) "reviews_per_month" then
         s ← Frame.getitem df "reviews_per_month";
         m ← Series.between s rpm_range.1 rpm_range.2;
         mret (Some m)
       else mret None);
  let mask := and_opt (and_opt a b) c in
  mask ← match selected_ng with
         | Some sel =>
             s ← Frame.getitem df "neighbourhood_group";
             mret (Series.mask_and mask (Series.isin sel s))
         | None => mret mask
         end;
  match selected_rt with
  | Some sel =>
      s ← Frame.getitem df "room_type";
      mret (Series.mask_and mask (Series.isin sel s))
  | None => mret mask
  end.

(** [dff = df.loc[mask].copy()] *)
Definition dff : result DataFrame :=
  m ← mask; mret (Frame.getitem_mask df m).

End Script.

(** tab 2 and the bottom panel compute the reporter's summaries on the
    filtered view *)
Definition tab2 (dff : DataFrame) : option (result (list (Group.key * cell))) :=
  if Reporter.issubset ["neighbourhood_group"; "price"] (columns dff) then
    Some (g ← Group.agg Series.mean dff ["neighbourhood_group"] "price";
          mret (Group.round 2 (Group.sort_values_desc g)))
  else None.

Definition top (dff : DataFrame) : option (result (list (Group.key * cell))) :=
  if Reporter.issubset ["host_id"; "host_name"; "id"] (columns dff) then
    Some (t ← Group.agg Series.count dff ["host_id"; "host_name"] "id";
          mret (Group.head 15 (Group.sort_values_desc t)))
  else None.

End Dashboard.

(** ** What each cleaning step computes, as a function on table values

  These functions are the reading of the steps used in the statements
  below; [CleanerRun] proves that the steps compute them. *)

Module Value.
Section Value.
Context `{PandasOracle}.

Definition normalize (d : DataFrame) : DataFrame :=
  Frame.set_columns d (map Cleaner.normalize_name (columns d)).

(** one currency cell: [str], then the marks removed, then the parse *)
Definition currency_cell (c : cell) : cell :=
  Series.to_numeric_cell
    (Series.str_replace_currency_cell (Series.astype_str_cell c)).

Definition currency_col (c : string) (d : DataFrame) : DataFrame :=
  Frame.map_col Series.to_numeric_cell c
    (Frame.map_col
       (λ x, Series.str_replace_currency_cell (Series.astype_str_cell x)) c d).

Definition currency (cols : list string) (d : DataFrame) : DataFrame :=
  foldl (λ d c, currency_col c d) d cols.

Definition dates (cols : list string) (d : DataFrame) : DataFrame :=
  foldl (λ d c, Frame.map_col Series.to_datetime_cell c d) d cols.

Definition fill (defaults : list (string * cell)) (d : DataFrame) : DataFrame :=
  foldl (λ d e, Frame.map_col (Series.fillna_cell e.2) e.1 d) d defaults.

(** a cell that a comparison with a number accepts *)
Definition comparable (c : cell) : bool :=
  match c with NA | Num _ => true | _ => false end.

Definition at_least (x : Q) (c : cell) : bool :=
  match c with Num q => Qle_bool x q | _ => false end.
Definition at_most (x : Q) (c : cell) : bool :=
  match c with Num q => Qle_bool q x | _ => false end.

(** a cell that the bounds [lo, hi] keep *)
Definition within (lo hi : Q) (c : cell) : bool :=
  match c with
  | NA => true
  | Num q => Qle_bool lo q && Qle_bool q hi
  | _ => false
  end.

Definition keep (i : nat) (lo hi : Q) (r : list cell) : bool :=
  within lo hi (Frame.at_ i r).

(** the cell of a row under a column label *)
Definition cell_of (d : DataFrame) (c : string) (r : list cell) : option cell :=
  i ← Frame.index_of c (columns d); Some (Frame.at_ i r).

(** a column has a value that is not missing *)
Definition has_value (d : DataFrame) (c : string) : Prop :=
  Series.dropna (Frame.col d c) ≠ [].

(** the test [remove_outliers_bounds] applies to a row *)
Definition kept (d : DataFrame) (c : string) (lo hi : Q) (r : list cell) : bool :=
  match cell_of d c r with Some v => within lo hi v | None => true end.

(** absent, or a number between [lo] and [hi] *)
Definition in_range (lo hi : Q) (c : cell) : Prop :=
  c = NA ∨ ∃ q, c = Num q ∧ (lo <= q <= hi)%Q.

(** the numbers of a series *)
Fixpoint numbers (s : series) : list Q :=
  match s with
  | Num q :: s' => q :: numbers s'
  | _ :: s' => numbers s'
  | [] => []
  end.

(** one block of [sanity_checks]: the least present value of a column
    must not be negative *)
Definition nonneg_check (d : DataFrame) (c msg : string) : result unit :=
  if Frame.has (columns d) c then
    s ← Frame.getitem d c;
    m ← Series.min (Series.dropna s);
    Series.cell_ge 0 m ≫= λ b : bool,
    if b then Ok tt else Raise (AssertionError msg)
  else Ok tt.

Definition avail_check (d : DataFrame) : result unit :=
  if Frame.has (columns d) "availability_365" then
    s ← Frame.getitem d "availability_365";
    m ← Series.min (Series.dropna s);
    Series.cell_ge 0 m ≫= λ b : bool,
    (if b then Ok tt else Raise (AssertionError Cleaner.msg_avail_neg));;
    m ← Series.max (Series.dropna s);
    Series.cell_le 365 m ≫= λ b : bool,
    if b then Ok tt else Raise (AssertionError Cleaner.msg_avail_max)
  else Ok tt.

Definition checks (d : DataFrame) : result unit :=
  nonneg_check d "price" Cleaner.msg_price;;
  nonneg_check d "number_of_reviews" Cleaner.msg_reviews;;
  nonneg_check d "reviews_per_month" Cleaner.msg_rpm;;
  avail_check d.

(** steps 1 to 4 of [main] *)
Definition currency_cols_present (d : DataFrame) : list string :=
  filter (λ c, Frame.has (columns d) c = true) ["price"; "service_fee"].

Definition cols_with_defaults : list (string * cell) :=
  [("reviews_per_month", Num 0); ("host_identity_verified", Str "unknown")].

Definition prepared (d : DataFrame) : DataFrame :=
  let d1 := normalize d in
  fill cols_with_defaults
    (dates ["last_review"] (currency (currency_cols_present d1) d1)).

(** [str(x)] of the number [q] reads back as [q] *)
Definition round_trips (q : Q) : Prop :=
  Numeral.parse
    (Text.text (Text.remove_currency_marks (Text.chars (float_repr q))))
  = Some q.

(** every cell that the rows hold under a label satisfies [P] *)
Definition col_all (P : cell -> Prop) (d : DataFrame) (c : string) : Prop :=
  ∀ i r v, Frame.index_of c (columns d) = Some i ->
           r ∈ rows d -> r !! i = Some v -> P v.

(** header names that [normalize_columns] leaves as they are *)
Definition normal_header (d : DataFrame) : Prop :=
  map Cleaner.normalize_name (columns d) = columns d.

Definition timestamp_or_na (c : cell) : Prop :=
  match c with NA | Time _ => True | _ => False end.

(** the shape steps 1 to 4 give a table *)
Definition clean_shape (d : DataFrame) : Prop :=
  normal_header d
  ∧ col_all (λ v, comparable v = true) d "price"
  ∧ col_all (λ v, comparable v = true) d "service_fee"
  ∧ col_all timestamp_or_na d "last_review"
  ∧ col_all (λ v, is_na v = false) d "reviews_per_month"
  ∧ col_all (λ v, is_na v = false) d "host_identity_verified".

(** a column shows a number below [x], or above [x] *)
Definition some_below (d : DataFrame) (c : string) (x : Q) : Prop :=
  ∃ q, Num q ∈ Frame.col d c ∧ (q < x)%Q.
Definition some_above (d : DataFrame) (c : string) (x : Q) : Prop :=
  ∃ q, Num q ∈ Frame.col d c ∧ (x < q)%Q.

(** a column that, when the table has it, holds numbers and missing
    values only, and at least one number *)
Definition numeric_with_value (d : DataFrame) (c : string) : Prop :=
  c ∈ columns d ->
  forallb comparable (Frame.col d c) = true ∧ has_value d c.

End Value.
End Value.

(** ** Effects on the store *)

Module Effect.

(** every object of [h] is in [h'], unchanged *)
Definition unchanged (h h' : store) : Prop :=
  ∀ r d, h !! r = Some d -> h' !! r = Some d.

(** [r] names an object of [h'] that [h] does not have *)
Definition new_in (h h' : store) (r : ref) : Prop :=
  h !! r = None ∧ is_Some (h' !! r).

(** a call that leaves the objects it found as they were and returns a
    new one *)
Definition pure_call (m : M ref) (h : store) : Prop :=
  unchanged h (m h).2 ∧ ∀ out, (m h).1 = Ok out -> new_in h (m h).2 out.

End Effect.

(** ** The filtered view, in the words of the specification

  All filters are AND-combined, and a filter on a column that is absent
  from the table passes everything.  This is the reference the filter
  block of the dashboard is compared with. *)

Module ViewSpec.
Import Dashboard.

(** a test on the cell under a label; no restriction without the column *)
Definition on_col (d : DataFrame) (c : string) (test : cell -> bool)
    (r : list cell) : bool :=
  match Value.cell_of d c r with Some v => test v | None => true end.

Definition in_interval (range : Q * Q) (v : cell) : bool :=
  Value.at_least range.1 v && Value.at_most range.2 v.

Definition chosen (choice : list cell) (v : cell) : bool :=
  existsb (cell_eqb v) choice.

Definition passes (d : DataFrame) (w : widgets) (r : list cell) : bool :=
  on_col d "price" (in_interval (price_choice w)) r
  && on_col d "availability_365" (in_interval (avail_choice w)) r
  && on_col d "reviews_per_month" (in_interval (rpm_choice w)) r
  && on_col d "neighbourhood_group" (chosen (ng_choice w)) r
  && on_col d "room_type" (chosen (rt_choice w)) r.

Definition filtered_view (d : DataFrame) (w : widgets) : DataFrame :=
  Frame.filter_rows (passes d w) d.

(** the filter columns that are compared with numbers hold numbers and
    missing values only, as [load_data] leaves them *)
Definition numeric_filters (d : DataFrame) : Prop :=
  forallb Value.comparable (Frame.col d "price") = true
  ∧ forallb Value.comparable (Frame.col d "availability_365") = true
  ∧ forallb Value.comparable (Frame.col d "reviews_per_month") = true.

End ViewSpec.

(** ** The summaries, group by group *)

Module Summary.

(** the mean of the numbers of a series; NaN when it has none *)
Definition mean_value (s : series) : cell :=
  match Value.numbers s with
  | [] => NA
  | qs => Num (Qred (Series.Qsum qs / inject_Z (Z.of_nat (length qs))))
  end.

(** the number of present values of a series *)
Definition count_value (s : series) : cell :=
  Num (inject_Z (Z.of_nat (length (Series.dropna s)))).

(** one entry per group: the key and the summary of the group's values *)
Definition per_group (f : series -> cell) (row_keys : list Group.key)
    (vs : series) : list (Group.key * cell) :=
  map (λ k, (k, f (Group.members k row_keys vs))) (Group.groups row_keys).

(** values in descending order, missing values last *)
Definition descending (g : list (Group.key * cell)) : Prop :=
  Sorted (λ a b, Group.value_before a.2 b.2 = true) g.

(** two keys name the same group *)
Definition same_key (a b : Group.key) : Prop := Group.key_eqb a b = true.

(** the key of every row under the grouping labels *)
Definition keys_of (d : DataFrame) (by_ : list string) : list Group.key :=
  map (λ r, map (λ c, default NA (Value.cell_of d c r)) by_) (rows d).

(** [ks] lists the groups of the rows keyed by [rk]: keys of rows without
    a missing cell, every such row under one of them, no group twice *)
Definition groups_of (ks rk : list Group.key) : Prop :=
  (∀ k, k ∈ ks -> k ∈ rk ∧ Group.has_na k = false)
  ∧ (∀ k, k ∈ rk -> Group.has_na k = false -> ∃ k', k' ∈ ks ∧ same_key k' k)
  ∧ NoDupA same_key ks.

End Summary.

(** ** Sample tables and a sample oracle *)

Module Samples.

(** a printer of numbers with six fraction digits *)
Definition repr6 (q : Q) : string :=
  let n := Qfloor (Qabs q * inject_Z 1000000) in
  let frac := pretty (1000000 + n mod 1000000)%Z in
  (if Qle_bool 0 q then "" else "-")
  +:+ pretty (n / 1000000)%Z +:+ "." +:+ String.substring 1 6 frac.

(** a date parser that reads "YYYY-MM-DD" as the number YYYYMMDD *)
Definition date8 (s : string) : option Z :=
  let l := Text.chars s in
  if (length l =? 10)%nat then
    Numeral.digits (filter (λ c, Ascii.eqb c "-" = false) l)
  else None.

#[export] Instance oracle : PandasOracle := {|
  float_repr := repr6;
  time_repr := λ t, pretty t;
  parse_time := date8;
  time_of_number := λ _, None
|}.

Definition rooms : DataFrame :=
  {| columns := ["id"; "room_type"];
     rows := [[Num 1; Str "Private room"]; [Num 2; NA]] |}.

Definition listing (price avail : cell) : list cell :=
  [price; avail; Str "Entire home/apt"].

Definition listings : DataFrame :=
  {| columns := ["price"; "availability_365"; "room_type"];
     rows := [listing (Num 120) (Num 200); listing (Num 12000) (Num 10);
              listing NA (Num 365); listing (Num 80) (Num 366);
              listing (Num (-5)) NA; listing (Num 0) NA] |}.

Definition unrated : DataFrame :=
  {| columns := ["id"; "price"; "room_type"];
     rows := [[Num 1; NA; Str "Private room"]; [Num 2; NA; Str "Shared room"]] |}.

Definition raw_prices : DataFrame :=
  {| columns := ["id"; "price"; "service_fee"];
     rows := [[Num 1; Str "$1,234.56"; Str "$247"];
              [Num 2; Str "$966 "; Str "n/a"];
              [Num 3; NA; Num 12];
              [Num 4; Str "free"; Str "$1,000,000.5"]] |}.

Definition raw_listings : DataFrame :=
  {| columns := ["id"; " Price "; "Service Fee"; "last review";
                 "reviews per month"; "availability 365";
                 "host_identity_verified"];
     rows := [[Num 1; Str "$1,234.56"; Str "$247"; Str "2021-10-19";
               Num (Qred 0.21); Num 286; Str "unconfirmed"];
              [Num 2; Str "$142 "; Str "$28"; Str "5/21/2022";
               NA; Num 228; NA];
              [Num 3; Str "$12,000"; Str "$124"; NA;
               Num 1; Num 352; Str "verified"];
              [Num 4; Str "n/a"; Str ""; Str "2019-06-23";
               Num (Qred 4.64); Num 400; Str "verified"];
              [Num 5; Str "$577"; Str "$115"; Str "2018-11-19";
               Num (Qred 0.1); NA; Str "verified"]] |}.

Definition cleaned_listings : DataFrame :=
  {| columns := ["id"; "price"; "service_fee"; "last_review";
                 "reviews_per_month"; "availability_365";
                 "host_identity_verified"];
     rows := [[Num 1; Num (Qred 1234.56); Num 247; Time 20211019;
               Num (Qred 0.21); Num 286; Str "unconfirmed"];
              [Num 2; Num 142; Num 28; NA; Num 0; Num 228; Str "unknown"];
              [Num 5; Num 577; Num 115; Time 20181119;
               Num (Qred 0.1); NA; Str "verified"]] |}.

(** a cleaned table without a price column, and widget settings *)
Definition boroughs : DataFrame :=
  {| columns := ["id"; "neighbourhood_group"; "room_type"; "availability_365"];
     rows := [[Num 1; Str "Brooklyn"; Str "Private room"; Num 286];
              [Num 2; Str "Manhattan"; Str "Entire home/apt"; Num 228];
              [Num 3; Str "Queens"; Str "Private room"; Num 15]] |}.

Definition priced_boroughs : DataFrame :=
  {| columns := ["price"; "neighbourhood_group"; "room_type"];
     rows := [[Num 966; Str "Brooklyn"; Str "Private room"];
              [Num 142; Str "Manhattan"; Str "Entire home/apt"];
              [Num 620; Str "Manhattan"; Str "Private room"]] |}.

Definition all_selected : Dashboard.widgets :=
  {| Dashboard.ng_choice := [Str "Brooklyn"; Str "Manhattan"; Str "Queens"];
     Dashboard.rt_choice := [Str "Entire home/apt"; Str "Private room"];
     Dashboard.price_choice := (0, 1000)%Q;
     Dashboard.avail_choice := (0, 365)%Q;
     Dashboard.rpm_choice := (0, 5)%Q |}.

Definition no_group_selected : Dashboard.widgets :=
  {| Dashboard.ng_choice := [];
     Dashboard.rt_choice := [Str "Entire home/apt"; Str "Private room"];
     Dashboard.price_choice := (0, 1000)%Q;
     Dashboard.avail_choice := (0, 365)%Q;
     Dashboard.rpm_choice := (0, 5)%Q |}.

(** the two examples of the specification *)
Definition three_prices : DataFrame :=
  {| columns := ["neighbourhood_group"; "price"];
     rows := [[Str "A"; Num 10]; [Str "A"; Num 20]; [Str "B"; Num 30]] |}.

Definition host_row (id : Z) (host : string) : list cell :=
  [Num (inject_Z id); Str host; Str ("host " +:+ host)].

Definition nine_listings : DataFrame :=
  {| columns := ["id"; "host_id"; "host_name"];
     rows := [host_row 1 "H1"; host_row 2 "H2"; host_row 3 "H3";
              host_row 4 "H2"; host_row 5 "H1"; host_row 6 "H2";
              host_row 7 "H2"; host_row 8 "H1"; host_row 9 "H2"] |}.

End Samples.

(** ** A sample of [str] on numbers held as binary64

  Numbers are exact in this development; pandas holds them as binary64.
  This module gives one oracle for [str(x)] that accounts for it: the
  number is taken as the binary64 that the decimal reader of
  [pd.to_numeric] computes from its decimal text, and it is printed with
  the fewest digits that identify that binary64, as Python prints a
  float.  The reader keeps the first 17 digits of the text in a binary64
  accumulator and scales the result by one power of ten.  The exponent
  range of binary64 and the exponent notation that Python uses for very
  large and very small numbers are left out. *)

Module Binary64.

Definition pow2 (k : Z) : Q :=
  if (0 <=? k)%Z then inject_Z (2 ^ k) else / inject_Z (2 ^ (- k)).

(** the nearest number with a significand of 53 bits, halves to the even
    significand *)
Definition round53 (q : Q) : Q :=
  let a := Qabs q in
  if Qeq_bool a 0 then 0%Q
  else
    let t := (Z.log2 (Qnum a) - Z.log2 (Zpos (Qden a)))%Z in
    let e := if Qle_bool (pow2 t) a then (t - 52)%Z else (t - 53)%Z in
    let v := (inject_Z (Series.rint (a / pow2 e)) * pow2 e)%Q in
    Qred (if Qle_bool 0 q then v else - v).

(** one digit of the text: the accumulator, the number of digits used and
    the power of ten still to apply *)
Definition take_digit (fraction : bool) (st : Q * nat * Z) (c : ascii)
  : Q * nat * Z :=
  let '(acc, used, ex) := st in
  if (used <? 17)%nat then
    (round53 (round53 (acc * 10) + inject_Z (Numeral.digit_val c)), S used,
     if fraction then (ex - 1)%Z else ex)
  else (acc, used, if fraction then ex else (ex + 1)%Z).

(** the binary64 read from a decimal text: sign, digits, point, digits *)
Definition read (l : list ascii) : Q :=
  let '(neg, body) := Numeral.split_sign l in
  let '(ip, fp) := Numeral.break_at Numeral.is_point body in
  let st := foldl (take_digit false) (0%Q, 0%nat, 0%Z) ip in
  let '(acc, _, ex) := foldl (take_digit true) st (default [] fp) in
  let v :=
    if (0 <? ex)%Z then round53 (acc * round53 (Numeral.pow10 ex))
    else round53 (acc / round53 (Numeral.pow10 (- ex))) in
  if neg then (- v)%Q else v.

(** the decimal exponent of a positive number below one *)
Fixpoint lead (fuel : nat) (a : Q) (e : Z) : Z :=
  match fuel with
  | O => e
  | S fuel' => if Qle_bool 1 a then e else lead fuel' (a * 10)%Q (e - 1)%Z
  end.

(** [10^e <= a < 10^(e+1)] *)
Definition exp10 (a : Q) : Z :=
  if Qle_bool 1 a then Z.of_nat (String.length (pretty (Qfloor a))) - 1
  else lead 400 a 0.

(** [a] rounded to [p] significant digits *)
Definition significant (p : Z) (a : Q) : Q :=
  let s := Numeral.pow10 (exp10 a - p + 1) in
  Qred (inject_Z (Series.rint (a / s)) * s).

(** the first of the decimals nearest to [x] with 1, 2, ... and at most 17
    significant digits whose nearest binary64 is [x] *)
Fixpoint shortest (tries : nat) (p : Z) (x : Q) : Q :=
  match tries with
  | O => significant 17 x
  | S tries' =>
      let c := significant p x in
      if Qeq_bool (round53 c) x then c else shortest tries' (p + 1) x
  end.

(** the number of fraction digits of a decimal *)
Fixpoint places (fuel : nat) (f : Q) : nat :=
  match fuel with
  | O => O
  | S fuel' =>
      if Qeq_bool f (inject_Z (Qfloor f)) then O
      else S (places fuel' (f * 10)%Q)
  end.

(** a decimal in positional notation, with at least one fraction digit *)
Definition print (c : Q) : string :=
  let a := Qabs c in
  let i := Qfloor a in
  let f := (a - inject_Z i)%Q in
  let k := places 400 f in
  let n := Qfloor (f * Numeral.pow10 (Z.of_nat k)) in
  (if Qle_bool 0 c then "" else "-")
  +:+ pretty i +:+ "."
  +:+ (if (k =? 0)%nat then "0"
       else String.substring 1 k (pretty (10 ^ Z.of_nat k + n)%Z)).

(** the binary64 that holds a number, and the text printed for it *)
Definition stored (q : Q) : Q := read (Text.chars (print q)).

Definition repr (q : Q) : string :=
  let x := stored q in
  if Qeq_bool x 0 then "0.0"
  else (if Qle_bool 0 x then "" else "-") +:+ print (shortest 17 1 (Qabs x)).

Definition oracle : PandasOracle := {|
  float_repr := repr;
  time_repr := λ t, pretty t;
  parse_time := Samples.date8;
  time_of_number := λ _, None
|}.

(** a raw table with a price of 17 significant digits, the table that one
    run of [main] returns for it, and the table that a second run
    returns *)
Definition long_price : DataFrame :=
  {| columns := ["id"; " Price"];
     rows := [[Num 1; Str "$4306.6964029126866"]; [Num 2; Str "$1,234.56"]] |}.

Definition long_price_cleaned : DataFrame :=
  {| columns := ["id"; "price"];
     rows := [[Num 1; Num (Qred 4306.6964029126866)];
              [Num 2; Num (Qred 1234.56)]] |}.

Definition long_price_again : DataFrame :=
  {| columns := ["id"; "price"];
     rows := [[Num 1; Num (Qred 4306.6964029126875)];
              [Num 2; Num (Qred 1234.56)]] |}.

End Binary64.

(** * Proofs *)

(** ** Examples of the text functions *)

Example parse_ex1 : Numeral.parse "1234.56" = Some (Qred 1234.56).
Proof. vm_compute. reflexivity. Qed.
Example parse_ex2 : Numeral.parse " -1.5e3 " = Some (Qred (-1500)).
Proof. vm_compute. reflexivity. Qed.
Example parse_ex3 : Numeral.parse "nan" = None.
Proof. reflexivity. Qed.
Example parse_ex4 : Numeral.parse "12abc" = None.
Proof. reflexivity. Qed.
Example parse_ex5 : Numeral.parse ".5" = Some (Qred 0.5).
Proof. vm_compute. reflexivity. Qed.
Example normalize_name_ex :
  Cleaner.normalize_name " Number  of Reviews " = "number_of_reviews".
Proof. reflexivity. Qed.

(** ** Running the store monad *)

Module Run.

Lemma bind_run {A B} (m : M A) (f : A -> M B) h :
  (m ≫= f) h
  = match m h with
    | (Ok a, h') => f a h'
    | (Raise e, h') => (Raise e, h')
    end.
Proof. reflexivity. Qed.

Lemma read_run h r d : h !! r = Some d -> Py.read r h = (Ok d, h).
Proof. intros E. unfold Py.read. by rewrite E. Qed.

Lemma lookup_new (h : store) d : (h ++ [d]) !! length h = Some d.
Proof. rewrite lookup_app_r by lia. by rewrite Nat.sub_diag. Qed.

Lemma insert_new (h : store) d d' : <[length h := d']> (h ++ [d]) = h ++ [d'].
Proof. rewrite insert_app_r_alt by lia. by rewrite Nat.sub_diag. Qed.

Lemma copy_run h r d :
  h !! r = Some d -> Py.copy r h = (Ok (length h), h ++ [d]).
Proof.
  intros E. unfold Py.copy. by rewrite bind_run, (read_run _ _ _ E).
Qed.

Lemma columns_of_run h r d :
  h !! r = Some d -> Py.columns_of r h = (Ok (columns d), h).
Proof.
  intros E. unfold Py.columns_of. by rewrite bind_run, (read_run _ _ _ E).
Qed.

Lemma getitem_run h r d c :
  h !! r = Some d -> Py.getitem r c h = (Frame.getitem d c, h).
Proof.
  intros E. unfold Py.getitem. by rewrite bind_run, (read_run _ _ _ E).
Qed.

Lemma update_run h r d f :
  h !! r = Some d -> Py.update r f h = (Ok tt, <[r := f d]> h).
Proof. intros E. unfold Py.update. by rewrite E. Qed.

Lemma setitem_run h r d c s :
  h !! r = Some d ->
  Py.setitem r c s h = (Ok tt, <[r := Frame.setitem d c s]> h).
Proof. intros E. unfold Py.setitem. by rewrite (update_run _ _ _ _ E). Qed.

Lemma getitem_mask_run h r d m :
  h !! r = Some d ->
  Py.getitem_mask r m h = (Ok (length h), h ++ [Frame.getitem_mask d m]).
Proof.
  intros E. unfold Py.getitem_mask. by rewrite bind_run, (read_run _ _ _ E).
Qed.

(** a loop whose body rewrites the newest object *)
Lemma for_run {A} (body : A -> M unit) (F : DataFrame -> A -> DataFrame) h l :
  (∀ x d, body x (h ++ [d]) = (Ok tt, h ++ [F d x])) ->
  ∀ d, Py.for_ l body (h ++ [d]) = (Ok tt, h ++ [foldl F d l]).
Proof.
  intros Hbody. induction l as [|x l IH]; intros d; [done|].
  cbn [Py.for_ foldl]. by rewrite bind_run, Hbody, IH.
Qed.

End Run.

(** ** Tables *)

Module FrameFacts.
Import Frame.

Lemma index_of_lookup c cols i :
  index_of c cols = Some i -> cols !! i = Some c.
Proof.
  revert i. induction cols as [|c' cols IH]; intros i; [done|]. cbn.
  destruct (String.eqb_spec c c') as [->|Hne].
  - by intros [= <-].
  - destruct (index_of c cols) as [j|]; [|done].
    intros [= <-]. cbn. by apply IH.
Qed.

Lemma has_true c cols :
  has cols c = true <-> ∃ i, index_of c cols = Some i.
Proof.
  unfold has. rewrite bool_decide_eq_true. split.
  - induction cols as [|c' cols IH]; [by intros ?%elem_of_nil|].
    intros Hin. cbn. destruct (String.eqb_spec c c') as [->|Hne]; [by eexists|].
    apply elem_of_cons in Hin as [?|Hin]; [done|].
    destruct (IH Hin) as [i ->]. by eexists.
  - intros [i Hi]. apply index_of_lookup in Hi.
    by apply list_elem_of_lookup_2 in Hi.
Qed.

Lemma has_false c cols : has cols c = false <-> index_of c cols = None.
Proof.
  split.
  - intros Hf. destruct (index_of c cols) as [i|] eqn:E; [|done].
    assert (has cols c = true) by (apply has_true; eauto). congruence.
  - intros Hn. destruct (has cols c) eqn:E; [|done].
    apply has_true in E as [i Hi]. congruence.
Qed.

Lemma has_elem c cols : has cols c = true <-> c ∈ cols.
Proof. unfold has. apply bool_decide_eq_true. Qed.

Lemma index_of_inj c1 c2 cols i :
  index_of c1 cols = Some i -> index_of c2 cols = Some i -> c1 = c2.
Proof.
  intros H1%index_of_lookup H2%index_of_lookup. congruence.
Qed.

(** writing the column read back from the table *)
Lemma setitem_map d c i f :
  index_of c (columns d) = Some i ->
  setitem d c (map f (map (at_ i) (rows d))) = map_col f c d.
Proof.
  intros Hi. unfold setitem, map_col. rewrite Hi. f_equal.
  induction (rows d) as [|r rs IH]; [done|]. cbn. by rewrite IH.
Qed.

Lemma columns_map_col f c d : columns (map_col f c d) = columns d.
Proof. unfold map_col. by destruct (index_of c (columns d)). Qed.

Lemma map_col_absent f c d :
  index_of c (columns d) = None -> map_col f c d = d.
Proof. unfold map_col. by intros ->. Qed.

(** a mask computed row by row selects what [filter] selects *)
Lemma select_map {A} (p : A -> bool) (l : list A) :
  select (map p l) l = filter (λ a, p a = true) l.
Proof.
  induction l as [|a l IH]; [done|]. rewrite filter_cons. cbn [map select].
  rewrite IH. destruct (p a); by case_decide.
Qed.

Lemma at_insert i v r :
  at_ i (<[i := v]> r) = if decide (i < length r) then v else NA.
Proof.
  unfold at_. case_decide.
  - by rewrite list_lookup_insert_eq.
  - rewrite list_insert_ge by lia. by rewrite lookup_ge_None_2 by lia.
Qed.

Lemma at_insert_ne i j v r : i ≠ j -> at_ j (<[i := v]> r) = at_ j r.
Proof. intros Hne. unfold at_. by rewrite list_lookup_insert_ne. Qed.

Lemma insert_at_id i f r :
  (∀ c, r !! i = Some c -> f c = c) -> <[i := f (at_ i r)]> r = r.
Proof.
  intros Hf. unfold at_. destruct (r !! i) as [c|] eqn:E; cbn.
  - rewrite (Hf c eq_refl). by apply list_insert_id.
  - apply list_insert_ge. by apply lookup_ge_None.
Qed.

End FrameFacts.

(** ** Series *)

Module SeriesFacts.
Import Series.

Lemma traverse_ok {A B} (f : A -> result B) (g : A -> B) l :
  (∀ a, a ∈ l -> f a = Ok (g a)) -> traverse f l = Ok (map g l).
Proof.
  induction l as [|a l IH]; intros Hf; [done|]. cbn.
  rewrite (Hf a) by apply list_elem_of_here. cbn.
  rewrite IH; [done|]. intros b Hb. apply Hf. by apply list_elem_of_further.
Qed.

Lemma traverse_raise {A B} (f : A -> result B) e l :
  (∀ a b, f a = Raise b -> b = e) ->
  (∃ a b, a ∈ l ∧ f a = Raise b) -> traverse f l = Raise e.
Proof.
  intros He. induction l as [|a l IH]; intros (x & b & Hx & Hfx).
  - by apply elem_of_nil in Hx.
  - cbn. destruct (f a) as [v|e'] eqn:Ea; cbn.
    + apply elem_of_cons in Hx as [->|Hx]; [congruence|].
      rewrite IH; [done|]. eauto.
    + f_equal. eauto.
Qed.

Lemma traverse_inv {A B} (f : A -> result B) l bs :
  traverse f l = Ok bs -> Forall2 (λ a b, f a = Ok b) l bs.
Proof.
  revert bs. induction l as [|a l IH]; intros bs; cbn.
  - intros [= <-]. constructor.
  - destruct (f a) as [b|] eqn:Ea; cbn; [|done].
    destruct (traverse f l) as [bs'|] eqn:El; cbn; [|done].
    intros [= <-]. constructor; auto.
Qed.

Lemma forallb_false_ex {A} (p : A -> bool) l :
  forallb p l = false -> ∃ a, a ∈ l ∧ p a = false.
Proof.
  induction l as [|a l IH]; [done|]. cbn.
  destruct (p a) eqn:Ea; cbn.
  - intros (b & Hb & Hpb)%IH. exists b. split; [by apply list_elem_of_further|done].
  - intros _. exists a. split; [apply list_elem_of_here|done].
Qed.

Lemma ge_run s x :
  ge s x = if forallb Value.comparable s
           then Ok (map (Value.at_least x) s) else Raise TypeError.
Proof.
  unfold ge. destruct (forallb Value.comparable s) eqn:E.
  - apply traverse_ok. intros c Hc.
    rewrite forallb_forall in E. apply list_elem_of_In, E in Hc.
    by destruct c.
  - apply traverse_raise.
    + intros [] b; cbn; congruence.
    + apply forallb_false_ex in E as (c & Hc & Hn).
      exists c, TypeError. split; [done|]. by destruct c.
Qed.

Lemma le_run s x :
  le s x = if forallb Value.comparable s
           then Ok (map (Value.at_most x) s) else Raise TypeError.
Proof.
  unfold le. destruct (forallb Value.comparable s) eqn:E.
  - apply traverse_ok. intros c Hc.
    rewrite forallb_forall in E. apply list_elem_of_In, E in Hc.
    by destruct c.
  - apply traverse_raise.
    + intros [] b; cbn; congruence.
    + apply forallb_false_ex in E as (c & Hc & Hn).
      exists c, TypeError. split; [done|]. by destruct c.
Qed.

Lemma zip_with_map {A B C D} (f : B -> C -> D) (g : A -> B) (k : A -> C) l :
  zip_with f (map g l) (map k l) = map (λ a, f (g a) (k a)) l.
Proof. induction l as [|a l IH]; [done|]. cbn. by rewrite IH. Qed.

(** the mask of [remove_outliers_bounds] *)
Lemma bounds_mask lo hi s :
  mask_or (isna s) (mask_and (map (Value.at_least lo) s) (map (Value.at_most hi) s))
  = map (Value.within lo hi) s.
Proof.
  unfold mask_or, mask_and, isna. rewrite !zip_with_map.
  apply map_ext. by intros [].
Qed.

Lemma dropna_elem c s : c ∈ dropna s <-> c ∈ s ∧ is_na c = false.
Proof. unfold dropna. rewrite list_elem_of_filter. tauto. Qed.

End SeriesFacts.

(** ** What the cleaning steps do to the store *)

Module CleanerRun.
Import Run FrameFacts SeriesFacts.
Section Steps.
Context `{PandasOracle}.

Lemma normalize_columns_run h df d :
  h !! df = Some d ->
  Cleaner.normalize_columns df h = (Ok (length h), h ++ [Value.normalize d]).
Proof.
  intros E. unfold Cleaner.normalize_columns.
  rewrite bind_run, (copy_run _ _ _ E).
  rewrite bind_run, (columns_of_run _ _ d) by apply lookup_new.
  unfold Py.set_columns.
  rewrite bind_run, (update_run _ _ d) by apply lookup_new.
  by rewrite insert_new.
Qed.

(** the body of the three column loops: read a column of the newest
    object, rewrite its cells, store it back *)
Lemma rewrite_column_run (f : cell -> cell) h d c :
  (cs ← Py.columns_of (length h);
   if Frame.has cs c then
     s ← Py.getitem (length h) c;
     Py.setitem (length h) c (map f s)
   else mret tt) (h ++ [d])
  = (Ok tt, h ++ [Frame.map_col f c d]).
Proof.
  rewrite bind_run, (columns_of_run _ _ d) by apply lookup_new.
  destruct (Frame.has (columns d) c) eqn:Hc.
  - apply has_true in Hc as [i Hi].
    rewrite bind_run, (getitem_run _ _ d) by apply lookup_new.
    unfold Frame.getitem at 1. rewrite Hi.
    rewrite (setitem_run _ _ d) by apply lookup_new.
    by rewrite insert_new, setitem_map.
  - apply has_false in Hc. by rewrite map_col_absent.
Qed.

Lemma clean_currency_cols_run h df d cols :
  h !! df = Some d ->
  Cleaner.clean_currency_cols df cols h
  = (Ok (length h), h ++ [Value.currency cols d]).
Proof.
  intros E. unfold Cleaner.clean_currency_cols.
  rewrite bind_run, (copy_run _ _ _ E), bind_run.
  rewrite (for_run _ (λ d c, Value.currency_col c d)); [done|].
  intros c d'. rewrite bind_run, (columns_of_run _ _ d') by apply lookup_new.
  unfold Value.currency_col.
  destruct (Frame.has (columns d') c) eqn:Hc.
  - apply has_true in Hc as [i Hi].
    rewrite bind_run, (getitem_run _ _ d') by apply lookup_new.
    unfold Frame.getitem at 1. rewrite Hi.
    rewrite bind_run, (setitem_run _ _ d') by apply lookup_new.
    rewrite insert_new.
    unfold Series.str_replace_currency, Series.astype_str.
    rewrite map_map, setitem_map by done.
    set (d1 := Frame.map_col _ c d').
    assert (Hi1 : Frame.index_of c (columns d1) = Some i)
      by (unfold d1; by rewrite columns_map_col).
    rewrite bind_run, (getitem_run _ _ d1) by apply lookup_new.
    unfold Frame.getitem. rewrite Hi1.
    rewrite (setitem_run _ _ d1) by apply lookup_new.
    unfold Series.to_numeric. by rewrite insert_new, setitem_map.
  - apply has_false in Hc. by rewrite !(map_col_absent _ c d' Hc).
Qed.

Lemma parse_date_cols_run h df d cols :
  h !! df = Some d ->
  Cleaner.parse_date_cols df cols h
  = (Ok (length h), h ++ [Value.dates cols d]).
Proof.
  intros E. unfold Cleaner.parse_date_cols.
  rewrite bind_run, (copy_run _ _ _ E), bind_run.
  rewrite (for_run _ (λ d c, Frame.map_col Series.to_datetime_cell c d)); [done|].
  intros c d'. apply rewrite_column_run.
Qed.

Lemma fill_missing_values_run h df d defaults :
  h !! df = Some d ->
  Cleaner.fill_missing_values df defaults h
  = (Ok (length h), h ++ [Value.fill defaults d]).
Proof.
  intros E. unfold Cleaner.fill_missing_values.
  rewrite bind_run, (copy_run _ _ _ E), bind_run.
  rewrite (for_run _ (λ d e, Frame.map_col (Series.fillna_cell e.2) e.1 d));
    [done|].
  intros [c v] d'. apply (rewrite_column_run (Series.fillna_cell v)).
Qed.

Lemma remove_outliers_bounds_absent h df d c lo hi :
  h !! df = Some d -> Frame.index_of c (columns d) = None ->
  Cleaner.remove_outliers_bounds df c lo hi h = (Ok df, h).
Proof.
  intros E Hc. unfold Cleaner.remove_outliers_bounds.
  rewrite bind_run, (columns_of_run _ _ _ E).
  apply has_false in Hc. by rewrite Hc.
Qed.

Lemma remove_outliers_bounds_present h df d c i lo hi :
  h !! df = Some d -> Frame.index_of c (columns d) = Some i ->
  Cleaner.remove_outliers_bounds df c lo hi h
  = if forallb Value.comparable (Frame.col d c)
    then (Ok (length h), h ++ [Frame.filter_rows (Value.keep i lo hi) d])
    else (Raise TypeError, h).
Proof.
  intros E Hi. unfold Cleaner.remove_outliers_bounds.
  rewrite bind_run, (columns_of_run _ _ _ E).
  assert (Hc : Frame.has (columns d) c = true) by (apply has_true; eauto).
  rewrite Hc. cbn [negb].
  rewrite bind_run, (getitem_run _ _ _ _ E).
  unfold Frame.getitem, Frame.col. rewrite Hi. cbv zeta.
  rewrite bind_run, (getitem_run _ _ _ _ E).
  unfold Frame.getitem. rewrite Hi.
  rewrite bind_run. unfold Py.lift at 1. rewrite ge_run.
  destruct (forallb Value.comparable _) eqn:Hcmp; [|done].
  rewrite bind_run, (getitem_run _ _ _ _ E).
  unfold Frame.getitem. rewrite Hi.
  rewrite bind_run. unfold Py.lift. rewrite le_run, Hcmp.
  rewrite (getitem_mask_run _ _ _ _ E), bounds_mask.
  unfold Frame.getitem_mask, Frame.filter_rows.
  by rewrite map_map, select_map.
Qed.

End Steps.
End CleanerRun.

(** ** The cleaning steps and the objects of the store *)

Module CleanerEffects.
Import Run FrameFacts SeriesFacts CleanerRun Effect Samples.

Lemma unchanged_refl h : unchanged h h.
Proof. by intros r d. Qed.

Lemma unchanged_alloc h d : unchanged h (h ++ [d]).
Proof. intros r d' E. by apply lookup_app_l_Some. Qed.

Lemma new_in_alloc h d : new_in h (h ++ [d]) (length h).
Proof.
  split.
  - by apply lookup_ge_None.
  - exists d. apply lookup_new.
Qed.

Lemma pure_call_alloc (m : M ref) h d :
  m h = (Ok (length h), h ++ [d]) -> pure_call m h.
Proof.
  intros E. unfold pure_call. rewrite E. cbn. split.
  - apply unchanged_alloc.
  - intros out [= <-]. apply new_in_alloc.
Qed.

(** C9, as stated, fails: [remove_outliers_bounds] on a table without the
    column hands back its argument, not a new table. *)
Lemma remove_outliers_bounds_returns_argument :
  [rooms] !! 0%nat = Some rooms ∧
  Cleaner.remove_outliers_bounds 0 "price" 0 10000 [rooms] = (Ok 0%nat, [rooms]) ∧
  ¬ pure_call (Cleaner.remove_outliers_bounds 0 "price" 0 10000) [rooms].
Proof.
  split; [done|]. split; [done|].
  intros [_ Hnew]. destruct (Hnew 0%nat eq_refl) as [Hnone _]. discriminate.
Qed.

Section Steps.
Context `{PandasOracle}.

(** C9, amended: every per-step cleaning function leaves each table that
    existed before the call unchanged, also when it raises;
    [normalize_columns], [clean_currency_cols], [parse_date_cols] and
    [fill_missing_values] always return a new table;
    [remove_outliers_bounds] returns a new table when the column is
    present and the argument itself, with no new table made, when the
    column is absent. *)
Theorem cleaning_steps_frame h df d :
  h !! df = Some d ->
  pure_call (Cleaner.normalize_columns df) h ∧
  (∀ cols, pure_call (Cleaner.clean_currency_cols df cols) h) ∧
  (∀ cols, pure_call (Cleaner.parse_date_cols df cols) h) ∧
  (∀ defaults, pure_call (Cleaner.fill_missing_values df defaults) h) ∧
  (∀ c lo hi,
     unchanged h (Cleaner.remove_outliers_bounds df c lo hi h).2 ∧
     (c ∈ columns d -> pure_call (Cleaner.remove_outliers_bounds df c lo hi) h) ∧
     (c ∉ columns d ->
      Cleaner.remove_outliers_bounds df c lo hi h = (Ok df, h))).
Proof.
  intros E. split; [|split; [|split; [|split]]].
  - eapply pure_call_alloc. by apply normalize_columns_run.
  - intros cols. eapply pure_call_alloc. by apply clean_currency_cols_run.
  - intros cols. eapply pure_call_alloc. by apply parse_date_cols_run.
  - intros defaults. eapply pure_call_alloc. by apply fill_missing_values_run.
  - intros c lo hi.
    destruct (Frame.index_of c (columns d)) as [i|] eqn:Hi.
    + assert (Hc : c ∈ columns d) by (apply has_elem, has_true; eauto).
      rewrite (remove_outliers_bounds_present _ _ _ _ _ _ _ E Hi).
      split; [|split; [|done]].
      * destruct (forallb _ _); cbn; [apply unchanged_alloc|apply unchanged_refl].
      * intros _. unfold pure_call.
        rewrite (remove_outliers_bounds_present _ _ _ _ _ _ _ E Hi).
        destruct (forallb _ _); cbn.
        -- split; [apply unchanged_alloc|]. intros out [= <-]. apply new_in_alloc.
        -- split; [apply unchanged_refl|done].
    + assert (Hc : c ∉ columns d).
      { intros Hc%has_elem%has_true. destruct Hc as [i Hi']. congruence. }
      rewrite (remove_outliers_bounds_absent _ _ _ _ _ _ E Hi).
      split; [apply unchanged_refl|]. split; [done|done].
Qed.

End Steps.

Lemma cleaning_steps_frame_witness :
  pure_call (Cleaner.normalize_columns 0) [rooms] ∧
  (∀ cols, pure_call (Cleaner.clean_currency_cols 0 cols) [rooms]) ∧
  (∀ cols, pure_call (Cleaner.parse_date_cols 0 cols) [rooms]) ∧
  (∀ defaults, pure_call (Cleaner.fill_missing_values 0 defaults) [rooms]) ∧
  (∀ c lo hi,
     unchanged [rooms] (Cleaner.remove_outliers_bounds 0 c lo hi [rooms]).2 ∧
     (c ∈ columns rooms ->
      pure_call (Cleaner.remove_outliers_bounds 0 c lo hi) [rooms]) ∧
     (c ∉ columns rooms ->
      Cleaner.remove_outliers_bounds 0 c lo hi [rooms] = (Ok 0%nat, [rooms]))).
Proof. apply (cleaning_steps_frame [rooms] 0%nat rooms). reflexivity. Defined.

End CleanerEffects.

(** ** Hard bounds and sanity checks *)

Module Bounds.
Import Run FrameFacts SeriesFacts CleanerRun Effect Samples.

Lemma cell_of_index d c i r :
  Frame.index_of c (columns d) = Some i ->
  Value.cell_of d c r = Some (Frame.at_ i r).
Proof. intros Hi. unfold Value.cell_of. by rewrite Hi. Qed.

Lemma cell_of_columns d d' c r :
  columns d' = columns d -> Value.cell_of d' c r = Value.cell_of d c r.
Proof. intros E. unfold Value.cell_of. by rewrite E. Qed.

Lemma kept_columns d d' c lo hi r :
  columns d' = columns d -> Value.kept d' c lo hi r = Value.kept d c lo hi r.
Proof. intros E. unfold Value.kept. by rewrite (cell_of_columns d d'). Qed.

Lemma col_elem d c v :
  v ∈ Frame.col d c <-> ∃ r, r ∈ rows d ∧ Value.cell_of d c r = Some v.
Proof.
  unfold Frame.col, Value.cell_of.
  destruct (Frame.index_of c (columns d)) as [i|]; cbn.
  - rewrite list_elem_of_fmap. split.
    + intros (r & -> & Hr). eauto.
    + intros (r & Hr & [= <-]). eauto.
  - split; [by intros ?%elem_of_nil|by intros (r & _ & ?)].
Qed.

Lemma within_in_range lo hi v :
  Value.within lo hi v = true <-> Value.in_range lo hi v.
Proof.
  unfold Value.in_range. destruct v as [|q|s|t]; cbn.
  - split; [by left|done].
  - rewrite andb_true_iff, !Qle_bool_iff. split.
    + intros Hq. right. by exists q.
    + intros [?|(q' & [= <-] & Hq)]; done.
  - split; [done|]. by intros [?|(q' & ? & _)].
  - split; [done|]. by intros [?|(q' & ? & _)].
Qed.

Lemma filter_all {A} (P : A -> Prop) `{∀ x, Decision (P x)} (l : list A) :
  (∀ x, x ∈ l -> P x) -> filter P l = l.
Proof.
  induction l as [|a l IH]; intros Hall; [done|].
  rewrite filter_cons_True by (apply Hall, list_elem_of_here).
  f_equal. apply IH. intros x Hx. by apply Hall, list_elem_of_further.
Qed.

(** a successful trim: the table it returns, in terms of the one it got *)
Lemma remove_outliers_bounds_inv h df d c lo hi out h' :
  h !! df = Some d ->
  Cleaner.remove_outliers_bounds df c lo hi h = (Ok out, h') ->
  ∃ d', h' !! out = Some d' ∧ unchanged h h' ∧
        columns d' = columns d ∧
        rows d' = filter (λ r, Value.kept d c lo hi r = true) (rows d) ∧
        forallb Value.comparable (Frame.col d c) = true.
Proof.
  intros E Hrun.
  destruct (Frame.index_of c (columns d)) as [i|] eqn:Hi.
  - rewrite (remove_outliers_bounds_present _ _ _ _ _ _ _ E Hi) in Hrun.
    destruct (forallb _ _) eqn:Hcmp; [|done].
    injection Hrun as <- <-. eexists. split; [apply lookup_new|].
    split; [apply CleanerEffects.unchanged_alloc|]. split; [done|].
    split; [|done]. cbn. apply list_filter_iff. intros r.
    unfold Value.kept, Value.keep. by rewrite (cell_of_index _ _ i).
  - rewrite (remove_outliers_bounds_absent _ _ _ _ _ _ E Hi) in Hrun.
    injection Hrun as <- <-. exists d. split; [done|].
    split; [apply CleanerEffects.unchanged_refl|]. split; [done|].
    unfold Frame.col. rewrite Hi. split; [|done].
    symmetry. apply filter_all. intros r _.
    unfold Value.kept, Value.cell_of. by rewrite Hi.
Qed.

Lemma comparable_filter d c (P : list cell -> Prop) `{∀ r, Decision (P r)} :
  forallb Value.comparable (Frame.col d c) = true ->
  forallb Value.comparable
    (Frame.col {| columns := columns d; rows := filter P (rows d) |} c) = true.
Proof.
  unfold Frame.col. cbn. destruct (Frame.index_of c (columns d)); [|done].
  rewrite !forallb_forall. intros Hall v [r [<- Hr]]%in_map_iff.
  apply Hall, in_map. apply list_elem_of_In.
  apply list_elem_of_In in Hr. by apply list_elem_of_filter in Hr as [_ ?].
Qed.

(** a trim runs when the column holds numbers and missing values only *)
Lemma remove_outliers_bounds_runs h df d c lo hi :
  h !! df = Some d ->
  forallb Value.comparable (Frame.col d c) = true ->
  ∃ out h', Cleaner.remove_outliers_bounds df c lo hi h = (Ok out, h').
Proof.
  intros E Hcmp. destruct (Frame.index_of c (columns d)) as [i|] eqn:Hi.
  - rewrite (remove_outliers_bounds_present _ _ _ _ _ _ _ E Hi), Hcmp. eauto.
  - rewrite (remove_outliers_bounds_absent _ _ _ _ _ _ E Hi). eauto.
Qed.

Lemma hard_bounds_inv h df d out h' :
  h !! df = Some d ->
  Cleaner.hard_bounds df h = (Ok out, h') ->
  ∃ d', h' !! out = Some d' ∧ unchanged h h' ∧
        columns d' = columns d ∧
        rows d' = filter (λ r, Value.kept d "availability_365" 0 365 r = true)
                    (filter (λ r, Value.kept d "price" 0 10000 r = true) (rows d)) ∧
        forallb Value.comparable (Frame.col d' "price") = true ∧
        forallb Value.comparable (Frame.col d' "availability_365") = true.
Proof.
  intros E. unfold Cleaner.hard_bounds. rewrite bind_run.
  destruct (Cleaner.remove_outliers_bounds df "price" 0 10000 h)
    as [[df1|e] h1] eqn:E1; [|done].
  intros E2.
  destruct (remove_outliers_bounds_inv _ _ _ _ _ _ _ _ E E1)
    as (d1 & Hd1 & Hu1 & Hc1 & Hr1 & Hcmp1).
  destruct (remove_outliers_bounds_inv _ _ _ _ _ _ _ _ Hd1 E2)
    as (d2 & Hd2 & Hu2 & Hc2 & Hr2 & Hcmp2).
  exists d2. split; [done|]. split; [intros r x Hx; by apply Hu2, Hu1|].
  split; [congruence|]. split.
  - rewrite Hr2, Hr1. apply list_filter_iff. intros r.
    by rewrite (kept_columns d d1).
  - destruct d1 as [cs1 rs1], d2 as [cs2 rs2]. cbn in *. subst. split.
    + apply (comparable_filter {| columns := columns d; rows := _ |}).
      by apply (comparable_filter d).
    + by apply (comparable_filter {| columns := columns d; rows := _ |}).
Qed.

(** the cells of a trimmed table *)
Lemma hard_bounds_cells h df d out h' :
  h !! df = Some d ->
  Cleaner.hard_bounds df h = (Ok out, h') ->
  ∃ d', h' !! out = Some d' ∧ columns d' = columns d ∧
    rows d' `sublist_of` rows d ∧
    (∀ r v, r ∈ rows d' -> Value.cell_of d' "price" r = Some v ->
            Value.in_range 0 10000 v) ∧
    (∀ r v, r ∈ rows d' -> Value.cell_of d' "availability_365" r = Some v ->
            Value.in_range 0 365 v) ∧
    (∀ r, r ∈ rows d ->
          Value.kept d "price" 0 10000 r = true ->
          Value.kept d "availability_365" 0 365 r = true -> r ∈ rows d').
Proof.
  intros E Hrun.
  destruct (hard_bounds_inv _ _ _ _ _ E Hrun)
    as (d' & Hd' & _ & Hc & Hr & _).
  exists d'. split; [done|]. split; [done|]. split; [|split; [|split]].
  4:{ intros r Hin Hp Ha. rewrite Hr. by repeat (apply list_elem_of_filter; split). }
  - rewrite Hr. etrans; apply sublist_filter.
  - intros r v Hin Hv. rewrite Hr in Hin.
    apply list_elem_of_filter in Hin as [_ Hin].
    apply list_elem_of_filter in Hin as [Hk _].
    unfold Value.kept in Hk. rewrite (cell_of_columns d d') in Hv by done.
    rewrite Hv in Hk. by apply within_in_range.
  - intros r v Hin Hv. rewrite Hr in Hin.
    apply list_elem_of_filter in Hin as [Hk _].
    unfold Value.kept in Hk. rewrite (cell_of_columns d d') in Hv by done.
    rewrite Hv in Hk. by apply within_in_range.
Qed.

(** C2: after the two hard-bound trims of [main] every row's price, when
    the column is present, is absent or in [0, 10000], and its
    availability_365, when present, is absent or in [0, 365]; the rows are
    rows of the input, and every input row that both bounds accept is kept.
    A single trim keeps every row whose value in the bounded column is
    absent.  The trims run whenever the two columns hold only numbers and
    missing values. *)
Theorem hard_bounds_rows h df d :
  h !! df = Some d ->
  (forallb Value.comparable (Frame.col d "price") = true ->
   forallb Value.comparable (Frame.col d "availability_365") = true ->
   ∃ out h', Cleaner.hard_bounds df h = (Ok out, h')) ∧
  (∀ out h', Cleaner.hard_bounds df h = (Ok out, h') ->
     ∃ d', h' !! out = Some d' ∧ columns d' = columns d ∧
       rows d' `sublist_of` rows d ∧
       (∀ r v, r ∈ rows d' -> Value.cell_of d' "price" r = Some v ->
               Value.in_range 0 10000 v) ∧
       (∀ r v, r ∈ rows d' -> Value.cell_of d' "availability_365" r = Some v ->
               Value.in_range 0 365 v) ∧
       (∀ r, r ∈ rows d ->
             Value.kept d "price" 0 10000 r = true ->
             Value.kept d "availability_365" 0 365 r = true ->
             r ∈ rows d')) ∧
  (∀ c lo hi out h',
     Cleaner.remove_outliers_bounds df c lo hi h = (Ok out, h') ->
     ∃ d', h' !! out = Some d' ∧ columns d' = columns d ∧
       rows d' `sublist_of` rows d ∧
       (∀ r, r ∈ rows d -> Value.cell_of d c r = Some NA -> r ∈ rows d')).
Proof.
  intros E. split; [|split].
  - intros Hp Ha. unfold Cleaner.hard_bounds. rewrite bind_run.
    destruct (remove_outliers_bounds_runs h df d "price" 0 10000 E Hp)
      as (df1 & h1 & E1).
    rewrite E1.
    destruct (remove_outliers_bounds_inv _ _ _ _ _ _ _ _ E E1)
      as (d1 & Hd1 & _ & Hc1 & Hr1 & _).
    apply remove_outliers_bounds_runs with d1; [done|].
    destruct d1 as [cs1 rs1]. cbn in *. subst.
    by apply (comparable_filter d).
  - intros out h' Hrun. by apply (hard_bounds_cells h df).
  - intros c lo hi out h' Hrun.
    destruct (remove_outliers_bounds_inv _ _ _ _ _ _ _ _ E Hrun)
      as (d' & Hd' & _ & Hc & Hr & _).
    exists d'. split; [done|]. split; [done|]. split.
    + rewrite Hr. apply sublist_filter.
    + intros r Hin Hv. rewrite Hr. apply list_elem_of_filter. split; [|done].
      unfold Value.kept. by rewrite Hv.
Qed.

Lemma hard_bounds_rows_witness :
  ∃ out h', Cleaner.hard_bounds 0 [listings] = (Ok out, h').
Proof.
  apply (proj1 (hard_bounds_rows [listings] 0%nat listings eq_refl));
    reflexivity.
Defined.

Example hard_bounds_listings :
  Cleaner.hard_bounds 0 [listings]
  = (Ok 2%nat,
     [listings;
      {| columns := columns listings;
         rows := [listing (Num 120) (Num 200); listing NA (Num 365);
                  listing (Num 80) (Num 366); listing (Num 0) NA] |};
      {| columns := columns listings;
         rows := [listing (Num 120) (Num 200); listing NA (Num 365);
                  listing (Num 0) NA] |}]).
Proof. reflexivity. Qed.

End Bounds.

Module Checks.
Import Run FrameFacts SeriesFacts CleanerRun Effect Bounds Samples.

#[local] Instance Qle_transitive : Transitive Qle := Qle_trans.

Lemma nonneg_block_run h df d c msg :
  h !! df = Some d ->
  (if Frame.has (columns d) c then
     s ← Py.getitem df c;
     m ← Py.lift (Series.min (Series.dropna s));
     b ← Py.lift (Series.cell_ge 0 m);
     Py.assert b msg
   else mret tt) h
  = (Value.nonneg_check d c msg, h).
Proof.
  intros E. unfold Value.nonneg_check. destruct (Frame.has _ _); [|done].
  rewrite bind_run, (getitem_run _ _ _ _ E).
  destruct (Frame.getitem d c) as [s|e]; [|done]. cbn.
  rewrite bind_run. unfold Py.lift at 1.
  destruct (Series.min _) as [m|e]; [|done]. cbn.
  rewrite bind_run. unfold Py.lift.
  destruct (Series.cell_ge 0 m) as [[]|e]; done.
Qed.

Lemma avail_block_run h df d :
  h !! df = Some d ->
  (if Frame.has (columns d) "availability_365" then
     s ← Py.getitem df "availability_365";
     let s := Series.dropna s in
     m ← Py.lift (Series.min s);
     b ← Py.lift (Series.cell_ge 0 m);
     Py.assert b Cleaner.msg_avail_neg;;
     m ← Py.lift (Series.max s);
     b ← Py.lift (Series.cell_le 365 m);
     Py.assert b Cleaner.msg_avail_max
   else mret tt) h
  = (Value.avail_check d, h).
Proof.
  intros E. unfold Value.avail_check. destruct (Frame.has _ _); [|done].
  rewrite bind_run, (getitem_run _ _ _ _ E).
  destruct (Frame.getitem d _) as [s|e]; [|done]. cbn -[Cleaner.msg_avail_neg].
  rewrite bind_run. unfold Py.lift at 1.
  destruct (Series.min _) as [m|e]; [|done]. cbn -[Cleaner.msg_avail_neg].
  rewrite bind_run. unfold Py.lift at 1.
  destruct (Series.cell_ge 0 m) as [[]|e]; [|done|done].
  cbn -[Cleaner.msg_avail_max]. rewrite !bind_run. cbn -[Cleaner.msg_avail_max].
  unfold Py.lift at 1.
  destruct (Series.max _) as [m'|e]; [|done]. cbn -[Cleaner.msg_avail_max].
  rewrite bind_run. unfold Py.lift.
  destruct (Series.cell_le 365 m') as [[]|e]; done.
Qed.

(** the sanity checks read one table and leave the store alone *)
Lemma sanity_checks_value h df d :
  h !! df = Some d -> Cleaner.sanity_checks df h = (Value.checks d, h).
Proof.
  intros E. unfold Cleaner.sanity_checks, Value.checks.
  rewrite bind_run, (columns_of_run _ _ _ E).
  rewrite bind_run, (nonneg_block_run _ _ _ _ _ E).
  destruct (Value.nonneg_check d "price" _) as [[]|e]; [|done].
  rewrite bind_run, (columns_of_run _ _ _ E).
  rewrite bind_run, (nonneg_block_run _ _ _ _ _ E).
  destruct (Value.nonneg_check d "number_of_reviews" _) as [[]|e]; [|done].
  rewrite bind_run, (columns_of_run _ _ _ E).
  rewrite bind_run, (nonneg_block_run _ _ _ _ _ E).
  destruct (Value.nonneg_check d "reviews_per_month" _) as [[]|e]; [|done].
  rewrite bind_run, (columns_of_run _ _ _ E).
  exact (avail_block_run _ _ _ E).
Qed.

Lemma Qmin_fold_ge b qs q :
  Qle_bool b (fold_left Series.Qmin qs q) = true
  <-> Forall (λ x, (b <= x)%Q) (q :: qs).
Proof.
  revert q. induction qs as [|y qs IH]; intros q; cbn.
  - rewrite Qle_bool_iff. split; [by repeat constructor|by inversion 1].
  - rewrite IH. unfold Series.Qmin.
    destruct (Qle_bool q y) eqn:Hqy.
    + apply Qle_bool_iff in Hqy. split.
      * inversion 1; subst. constructor; [done|]. constructor; [|done].
        by etrans.
      * inversion 1 as [|? ? ? Hrest]; subst. inversion Hrest; subst.
        by constructor.
    + assert (y <= q)%Q.
      { destruct (Qlt_le_dec y q) as [?%Qlt_le_weak|Hle]; [done|].
        apply Qle_bool_iff in Hle. congruence. }
      split.
      * inversion 1; subst. constructor; [by etrans|]. by constructor.
      * inversion 1 as [|? ? ? Hrest]; subst. done.
Qed.

Lemma Qmax_fold_le b qs q :
  Qle_bool (fold_left Series.Qmax qs q) b = true
  <-> Forall (λ x, (x <= b)%Q) (q :: qs).
Proof.
  revert q. induction qs as [|y qs IH]; intros q; cbn.
  - rewrite Qle_bool_iff. split; [by repeat constructor|by inversion 1].
  - rewrite IH. unfold Series.Qmax.
    destruct (Qle_bool q y) eqn:Hqy.
    + apply Qle_bool_iff in Hqy. split.
      * inversion 1; subst. constructor; [by etrans|]. by constructor.
      * inversion 1 as [|? ? ? Hrest]; subst. done.
    + assert (y <= q)%Q.
      { destruct (Qlt_le_dec y q) as [?%Qlt_le_weak|Hle]; [done|].
        apply Qle_bool_iff in Hle. congruence. }
      split.
      * inversion 1; subst. constructor; [done|]. constructor; [|done].
        by etrans.
      * inversion 1 as [|? ? ? Hrest]; subst. inversion Hrest; subst.
        by constructor.
Qed.

Lemma numbers_elem q s : q ∈ Value.numbers s <-> Num q ∈ s.
Proof.
  induction s as [|c s IH]; cbn.
  - split; by intros ?%elem_of_nil.
  - destruct c as [|p|t|t]; rewrite ?elem_of_cons, IH.
    + split; [by right|by intros [?|?]].
    + split; (intros [?|?]; [left; congruence|by right]).
    + split; [by right|by intros [?|?]].
    + split; [by right|by intros [?|?]].
Qed.

Lemma numbers_dropna s :
  forallb Value.comparable s = true ->
  Series.traverse Series.number (Series.dropna s) = Ok (Value.numbers s).
Proof.
  unfold Series.dropna. induction s as [|c s IH]; [done|].
  cbn [forallb]. intros [Hc Hs]%andb_true_iff. rewrite filter_cons.
  destruct c; try done; cbn [is_na Value.numbers].
  - rewrite decide_False by done. by apply IH.
  - rewrite decide_True by done. cbn. by rewrite (IH Hs).
Qed.

Lemma numbers_nil s :
  forallb Value.comparable s = true ->
  Value.numbers s = [] <-> Series.dropna s = [].
Proof.
  unfold Series.dropna. induction s as [|c s IH]; [done|].
  cbn [forallb]. intros [Hc Hs]%andb_true_iff. rewrite filter_cons.
  destruct c; try done; cbn [is_na Value.numbers].
  rewrite decide_False by done. by apply IH.
Qed.

Lemma not_comparable_raises s :
  forallb Value.comparable s = false ->
  Series.traverse Series.number (Series.dropna s) = Raise TypeError.
Proof.
  intros (c & Hc & Hn)%forallb_false_ex. apply traverse_raise.
  - intros [] b; cbn; congruence.
  - exists c, TypeError. split; [|by destruct c].
    apply dropna_elem. split; [done|]. by destruct c.
Qed.

(** what one block of the sanity checks answers *)
Lemma nonneg_check_spec d c msg :
  Value.nonneg_check d c msg
  = if Frame.has (columns d) c then
      if forallb Value.comparable (Frame.col d c) then
        match Value.numbers (Frame.col d c) with
        | [] => Raise (AssertionError msg)
        | q :: qs =>
            if Qle_bool 0 (fold_left Series.Qmin qs q) then Ok tt
            else Raise (AssertionError msg)
        end
      else Raise TypeError
    else Ok tt.
Proof.
  unfold Value.nonneg_check. destruct (Frame.has _ _) eqn:Hc; [|done].
  apply has_true in Hc as [i Hi]. unfold Frame.getitem, Frame.col.
  rewrite Hi. cbn. unfold Series.min, Series.extremum.
  destruct (forallb _ _) eqn:Hcmp.
  - rewrite (numbers_dropna _ Hcmp). cbn.
    destruct (Value.numbers _) as [|q qs]; [done|]. cbn.
    by destruct (Qle_bool _ _).
  - by rewrite (not_comparable_raises _ Hcmp).
Qed.

Lemma avail_check_spec d :
  Value.avail_check d
  = let c := "availability_365" in
    if Frame.has (columns d) c then
      if forallb Value.comparable (Frame.col d c) then
        match Value.numbers (Frame.col d c) with
        | [] => Raise (AssertionError Cleaner.msg_avail_neg)
        | q :: qs =>
            if Qle_bool 0 (fold_left Series.Qmin qs q) then
              if Qle_bool (fold_left Series.Qmax qs q) 365 then Ok tt
              else Raise (AssertionError Cleaner.msg_avail_max)
            else Raise (AssertionError Cleaner.msg_avail_neg)
        end
      else Raise TypeError
    else Ok tt.
Proof.
  unfold Value.avail_check. cbv zeta.
  destruct (Frame.has _ _) eqn:Hc; [|done].
  apply has_true in Hc as [i Hi]. unfold Frame.getitem, Frame.col.
  rewrite Hi. cbn. unfold Series.min, Series.max, Series.extremum.
  destruct (forallb _ _) eqn:Hcmp.
  - rewrite (numbers_dropna _ Hcmp). cbn.
    destruct (Value.numbers _) as [|q qs]; [done|]. cbn.
    destruct (Qle_bool 0 _); [|done]. cbn. by destruct (Qle_bool _ 365).
  - by rewrite (not_comparable_raises _ Hcmp).
Qed.

Lemma Qmin_fold_in qs q : fold_left Series.Qmin qs q ∈ q :: qs.
Proof.
  revert q. induction qs as [|y qs IH]; intros q; cbn.
  - apply list_elem_of_here.
  - specialize (IH (Series.Qmin q y)). unfold Series.Qmin in *.
    destruct (Qle_bool q y); apply elem_of_cons in IH as [->|IH].
    + apply list_elem_of_here.
    + by do 2 apply list_elem_of_further.
    + apply list_elem_of_further, list_elem_of_here.
    + by do 2 apply list_elem_of_further.
Qed.

Lemma Qmax_fold_in qs q : fold_left Series.Qmax qs q ∈ q :: qs.
Proof.
  revert q. induction qs as [|y qs IH]; intros q; cbn.
  - apply list_elem_of_here.
  - specialize (IH (Series.Qmax q y)). unfold Series.Qmax in *.
    destruct (Qle_bool q y); apply elem_of_cons in IH as [->|IH].
    + apply list_elem_of_further, list_elem_of_here.
    + by do 2 apply list_elem_of_further.
    + apply list_elem_of_here.
    + by do 2 apply list_elem_of_further.
Qed.

Lemma Qle_bool_false a b : Qle_bool a b = false <-> (b < a)%Q.
Proof.
  split.
  - intros Hf. apply Qnot_le_lt. intros Hle%Qle_bool_iff. congruence.
  - intros Hlt. destruct (Qle_bool a b) eqn:E; [|done].
    apply Qle_bool_iff in E. by apply Qlt_not_le in Hlt.
Qed.

Lemma dropna_nil_comparable s :
  Series.dropna s = [] -> forallb Value.comparable s = true.
Proof.
  unfold Series.dropna. induction s as [|c s IH]; [done|].
  rewrite filter_cons. destruct c; cbn [is_na].
  - rewrite decide_False by done. cbn. apply IH.
  - by rewrite decide_True by done.
  - by rewrite decide_True by done.
  - by rewrite decide_True by done.
Qed.

Lemma has_value_index d c :
  Value.has_value d c -> ∃ i, Frame.index_of c (columns d) = Some i.
Proof.
  unfold Value.has_value, Frame.col.
  destruct (Frame.index_of c (columns d)); [eauto|done].
Qed.

Lemma numbers_in_range lo hi s :
  (∀ v, v ∈ s -> Value.in_range lo hi v) ->
  Forall (λ x, (lo <= x <= hi)%Q) (Value.numbers s).
Proof.
  intros Hall. apply Forall_forall. intros q Hq%numbers_elem.
  destruct (Hall _ Hq) as [?|(q' & [= <-] & ?)]; done.
Qed.

(** which exceptions a block can raise *)
Lemma nonneg_check_raise d c msg e :
  Value.nonneg_check d c msg = Raise e ->
  e = TypeError ∨ e = AssertionError msg.
Proof.
  rewrite nonneg_check_spec.
  repeat match goal with
    | |- context [if ?b then _ else _] => destruct b
    | |- context [match ?l with [] => _ | _ :: _ => _ end] => destruct l
    end; intros [= <-]; auto.
Qed.

Lemma avail_check_raise d e :
  Value.avail_check d = Raise e ->
  e = TypeError ∨ e = AssertionError Cleaner.msg_avail_neg
  ∨ e = AssertionError Cleaner.msg_avail_max.
Proof.
  rewrite avail_check_spec. cbv zeta.
  repeat match goal with
    | |- context [if ?b then _ else _] => destruct b
    | |- context [match ?l with [] => _ | _ :: _ => _ end] => destruct l
    end; intros [= <-]; auto.
Qed.

Lemma checks_raise d e :
  Value.checks d = Raise e ->
  Value.nonneg_check d "price" Cleaner.msg_price = Raise e
  ∨ Value.nonneg_check d "number_of_reviews" Cleaner.msg_reviews = Raise e
  ∨ Value.nonneg_check d "reviews_per_month" Cleaner.msg_rpm = Raise e
  ∨ Value.avail_check d = Raise e.
Proof.
  unfold Value.checks.
  destruct (Value.nonneg_check d "price" _) as [[]|]; [|auto].
  destruct (Value.nonneg_check d "number_of_reviews" _) as [[]|]; [|auto].
  destruct (Value.nonneg_check d "reviews_per_month" _) as [[]|]; [|auto].
  auto.
Qed.

(** a block passes on a column whose numbers are not negative, when
    there is one *)
Lemma nonneg_check_passes d c msg :
  forallb Value.comparable (Frame.col d c) = true ->
  Value.has_value d c ->
  Forall (λ x, (0 <= x)%Q) (Value.numbers (Frame.col d c)) ->
  Value.nonneg_check d c msg = Ok tt.
Proof.
  intros Hcmp Hv Hall. rewrite nonneg_check_spec, Hcmp.
  destruct (Frame.has _ _); [|done].
  destruct (Value.numbers _) as [|q qs] eqn:Hn.
  - apply numbers_nil in Hn; done.
  - apply Qmin_fold_ge in Hall. by rewrite Hall.
Qed.

Lemma avail_check_passes d :
  let c := "availability_365" in
  forallb Value.comparable (Frame.col d c) = true ->
  Value.has_value d c ->
  Forall (λ x, (0 <= x <= 365)%Q) (Value.numbers (Frame.col d c)) ->
  Value.avail_check d = Ok tt.
Proof.
  intros c Hcmp Hv Hall. rewrite avail_check_spec. cbv zeta. fold c.
  rewrite Hcmp. destruct (Frame.has _ _); [|done].
  destruct (Value.numbers _) as [|q qs] eqn:Hn.
  - apply numbers_nil in Hn; done.
  - assert (H0 : Forall (λ x, (0 <= x)%Q) (q :: qs))
      by (eapply Forall_impl; [exact Hall|]; intros x Hx; apply Hx).
    assert (H1 : Forall (λ x, (x <= 365)%Q) (q :: qs))
      by (eapply Forall_impl; [exact Hall|]; intros x Hx; apply Hx).
    apply Qmin_fold_ge in H0. apply Qmax_fold_le in H1.
    by rewrite H0, H1.
Qed.

(** C10: after the two hard-bound trims, a price column with at least
    one present value passes the price assertion, and an availability_365
    column with at least one present value passes both availability
    assertions; [sanity_checks] on the trimmed table does not end in any
    of these assertion errors. *)
Theorem trimmed_assertions_cannot_fire h df d out h' :
  h !! df = Some d ->
  Cleaner.hard_bounds df h = (Ok out, h') ->
  ∃ d', h' !! out = Some d' ∧
    (Value.has_value d' "price" ->
     Value.nonneg_check d' "price" Cleaner.msg_price = Ok tt ∧
     (Cleaner.sanity_checks out h').1
       ≠ Raise (AssertionError Cleaner.msg_price)) ∧
    (Value.has_value d' "availability_365" ->
     Value.avail_check d' = Ok tt ∧
     (Cleaner.sanity_checks out h').1
       ≠ Raise (AssertionError Cleaner.msg_avail_neg) ∧
     (Cleaner.sanity_checks out h').1
       ≠ Raise (AssertionError Cleaner.msg_avail_max)).
Proof.
  intros E Hrun.
  destruct (hard_bounds_inv _ _ _ _ _ E Hrun)
    as (d' & Hd' & _ & Hc & Hr & Hcp & Hca).
  destruct (hard_bounds_cells h df d out h' E Hrun)
    as (d'' & Hd'' & _ & _ & Hprice & Havail & _).
  assert (d'' = d') as -> by congruence.
  exists d'. split; [done|].
  rewrite (sanity_checks_value _ _ _ Hd'). cbn [fst].
  split.
  - intros Hv.
    assert (Hpass : Value.nonneg_check d' "price" Cleaner.msg_price = Ok tt).
    { apply nonneg_check_passes; [done|done|].
      eapply Forall_impl.
      - apply (numbers_in_range 0 10000). intros v Hin.
        apply col_elem in Hin as (r & Hr' & Hv'). eauto.
      - intros x Hx. apply Hx. }
    split; [done|]. intros Hraise.
    apply checks_raise in Hraise as [Hp|[Hp|[Hp|Hp]]].
    + congruence.
    + by apply nonneg_check_raise in Hp as [?|?].
    + by apply nonneg_check_raise in Hp as [?|?].
    + by apply avail_check_raise in Hp as [?|[?|?]].
  - intros Hv.
    assert (Hpass : Value.avail_check d' = Ok tt).
    { apply avail_check_passes; [done|done|].
      apply numbers_in_range. intros v Hin.
      apply col_elem in Hin as (r & Hr' & Hv'). eauto. }
    split; [done|]. split; intros Hraise;
      apply checks_raise in Hraise as [Hp|[Hp|[Hp|Hp]]];
      try (by apply nonneg_check_raise in Hp as [?|?]); congruence.
Qed.

Lemma trimmed_assertions_cannot_fire_witness :
  let h' := (Cleaner.hard_bounds 0 [listings]).2 in
  ∃ d', h' !! 2%nat = Some d' ∧
    (Value.has_value d' "price" ->
     Value.nonneg_check d' "price" Cleaner.msg_price = Ok tt ∧
     (Cleaner.sanity_checks 2 h').1
       ≠ Raise (AssertionError Cleaner.msg_price)) ∧
    (Value.has_value d' "availability_365" ->
     Value.avail_check d' = Ok tt ∧
     (Cleaner.sanity_checks 2 h').1
       ≠ Raise (AssertionError Cleaner.msg_avail_neg) ∧
     (Cleaner.sanity_checks 2 h').1
       ≠ Raise (AssertionError Cleaner.msg_avail_max)).
Proof.
  exact (trimmed_assertions_cannot_fire [listings] 0%nat listings 2%nat _
           eq_refl eq_refl).
Defined.

(** C4 (the code departs from it): on a table whose price column has no
    present value at all, [sanity_checks] raises the assertion error
    "Price column has negative values", although no present value is
    negative.  The store is left as it was. *)
Theorem sanity_checks_abort_without_values h df d :
  h !! df = Some d ->
  "price" ∈ columns d ->
  Series.dropna (Frame.col d "price") = [] ->
  Cleaner.sanity_checks df h = (Raise (AssertionError Cleaner.msg_price), h).
Proof.
  intros E Hc Hnone. rewrite (sanity_checks_value _ _ _ E). f_equal.
  unfold Value.checks. rewrite (nonneg_check_spec d "price").
  rewrite (proj2 (has_elem _ _) Hc).
  rewrite (dropna_nil_comparable _ Hnone).
  apply numbers_nil in Hnone; [|by apply dropna_nil_comparable].
  by rewrite Hnone.
Qed.

Lemma sanity_checks_abort_without_values_witness :
  Cleaner.sanity_checks 0 [unrated]
  = (Raise (AssertionError Cleaner.msg_price), [unrated]).
Proof.
  apply (sanity_checks_abort_without_values [unrated] 0%nat unrated).
  - reflexivity.
  - by apply has_elem.
  - reflexivity.
Defined.

Lemma no_column_no_number d c q :
  Frame.has (columns d) c = false -> ¬ Num q ∈ Frame.col d c.
Proof.
  intros Hc%has_false. unfold Frame.col. rewrite Hc. by intros ?%elem_of_nil.
Qed.

Lemma nonneg_check_cases d c msg :
  Value.numeric_with_value d c ->
  (Value.nonneg_check d c msg = Ok tt ∧ ¬ Value.some_below d c 0)
  ∨ (Value.nonneg_check d c msg = Raise (AssertionError msg)
     ∧ Value.some_below d c 0).
Proof.
  intros Hnum. rewrite nonneg_check_spec.
  destruct (Frame.has (columns d) c) eqn:Hc.
  - destruct (Hnum (proj1 (has_elem _ _) Hc)) as [Hcmp Hv]. rewrite Hcmp.
    destruct (Value.numbers _) as [|q qs] eqn:Hn.
    { apply numbers_nil in Hn; done. }
    destruct (Qle_bool 0 _) eqn:Hmin.
    + left. split; [done|]. intros (x & Hx & Hlt).
      apply Qmin_fold_ge in Hmin. rewrite Forall_forall in Hmin.
      apply numbers_elem in Hx. rewrite Hn in Hx.
      apply Hmin in Hx. by apply Qlt_not_le in Hlt.
    + right. split; [done|]. exists (fold_left Series.Qmin qs q). split.
      * apply numbers_elem. rewrite Hn. apply Qmin_fold_in.
      * by apply Qle_bool_false.
  - left. split; [done|]. intros (x & Hx & _).
    by apply no_column_no_number in Hx.
Qed.

Lemma avail_check_cases d :
  let c := "availability_365" in
  Value.numeric_with_value d c ->
  (Value.avail_check d = Ok tt
   ∧ ¬ Value.some_below d c 0 ∧ ¬ Value.some_above d c 365)
  ∨ ((Value.avail_check d = Raise (AssertionError Cleaner.msg_avail_neg)
      ∨ Value.avail_check d = Raise (AssertionError Cleaner.msg_avail_max))
     ∧ (Value.some_below d c 0 ∨ Value.some_above d c 365)).
Proof.
  intros c Hnum. rewrite avail_check_spec. cbv zeta. fold c.
  destruct (Frame.has (columns d) c) eqn:Hc.
  - destruct (Hnum (proj1 (has_elem _ _) Hc)) as [Hcmp Hv]. rewrite Hcmp.
    destruct (Value.numbers _) as [|q qs] eqn:Hn.
    { apply numbers_nil in Hn; done. }
    destruct (Qle_bool 0 _) eqn:Hmin; [destruct (Qle_bool _ 365) eqn:Hmax|].
    + left. split; [done|].
      apply Qmin_fold_ge in Hmin. rewrite Forall_forall in Hmin.
      apply Qmax_fold_le in Hmax. rewrite Forall_forall in Hmax.
      split; intros (x & Hx & Hlt); apply numbers_elem in Hx;
        rewrite Hn in Hx.
      * apply Hmin in Hx. by apply Qlt_not_le in Hlt.
      * apply Hmax in Hx. by apply Qlt_not_le in Hlt.
    + right. split; [by right|]. right.
      exists (fold_left Series.Qmax qs q). split.
      * apply numbers_elem. rewrite Hn. apply Qmax_fold_in.
      * by apply Qle_bool_false.
    + right. split; [by left|]. left.
      exists (fold_left Series.Qmin qs q). split.
      * apply numbers_elem. rewrite Hn. apply Qmin_fold_in.
      * by apply Qle_bool_false.
  - left. split; [done|].
    split; intros (x & Hx & _); by apply no_column_no_number in Hx.
Qed.

(** What the sanity checks decide when every checked column that the
    table has holds numbers and missing values only, and at least one
    number: they end in an assertion error exactly when a present price,
    number_of_reviews or reviews_per_month is negative or a present
    availability_365 is outside [0, 365]; they never change the store. *)
Theorem sanity_checks_assertion_iff h df d :
  h !! df = Some d ->
  Value.numeric_with_value d "price" ->
  Value.numeric_with_value d "number_of_reviews" ->
  Value.numeric_with_value d "reviews_per_month" ->
  Value.numeric_with_value d "availability_365" ->
  (Cleaner.sanity_checks df h).2 = h ∧
  ((∃ msg, (Cleaner.sanity_checks df h).1 = Raise (AssertionError msg))
   <-> Value.some_below d "price" 0
       ∨ Value.some_below d "number_of_reviews" 0
       ∨ Value.some_below d "reviews_per_month" 0
       ∨ Value.some_below d "availability_365" 0
       ∨ Value.some_above d "availability_365" 365).
Proof.
  intros E Hp Hn Hr Ha. rewrite (sanity_checks_value _ _ _ E). cbn [fst snd].
  split; [done|]. unfold Value.checks.
  destruct (nonneg_check_cases d "price" Cleaner.msg_price Hp)
    as [[-> Np]|[-> Yp]]; [|split; eauto].
  destruct (nonneg_check_cases d "number_of_reviews" Cleaner.msg_reviews Hn)
    as [[-> Nn]|[-> Yn]]; [|split; eauto].
  destruct (nonneg_check_cases d "reviews_per_month" Cleaner.msg_rpm Hr)
    as [[-> Nr]|[-> Yr]]; [|split; eauto].
  destruct (avail_check_cases d Ha) as [(-> & Nb & Na)|[[-> | ->] Ya]].
  - split; [by intros [msg ?]|]. intros [?|[?|[?|[?|?]]]]; done.
  - split; [|by eauto]. intros _. destruct Ya; auto.
  - split; [|by eauto]. intros _. destruct Ya; auto.
Qed.

Lemma sanity_checks_assertion_iff_witness :
  (Cleaner.sanity_checks 0 [Samples.listings]).2 = [Samples.listings]
  ∧ ∃ msg, (Cleaner.sanity_checks 0 [Samples.listings]).1
           = Raise (AssertionError msg).
Proof.
  destruct (sanity_checks_assertion_iff [Samples.listings] 0%nat Samples.listings)
    as [Hstore Hiff]; try (intros _; split; [reflexivity|discriminate]).
  - reflexivity.
  - intros Hc%has_elem. discriminate Hc.
  - intros Hc%has_elem. discriminate Hc.
  - split; [done|]. apply Hiff. left. exists (-5)%Q. split; [|done].
    vm_compute. do 4 apply list_elem_of_further. apply list_elem_of_here.
Defined.

End Checks.

(** ** Currency coercion *)

Module Currency.
Import Run FrameFacts SeriesFacts CleanerRun Text Numeral Samples.

Lemma digit_classes c :
  is_digit c = true ->
  is_blank c = false ∧ is_exp_mark c = false ∧ is_point c = false
  ∧ ∀ l, split_sign (c :: l) = (false, c :: l).
Proof.
  destruct c as [[] [] [] [] [] [] [] []]; intros Hd; vm_compute in Hd;
    try discriminate; repeat split.
Qed.

Lemma lstrip_by_id p l :
  (∀ c, c ∈ l -> p c = false) -> lstrip_by p l = l.
Proof.
  destruct l as [|c l]; [done|]. intros Hall. cbn.
  by rewrite (Hall c) by apply list_elem_of_here.
Qed.

Lemma strip_by_id p l :
  (∀ c, c ∈ l -> p c = false) -> strip_by p l = l.
Proof.
  intros Hall. unfold strip_by. rewrite (lstrip_by_id p l Hall).
  rewrite lstrip_by_id; [apply rev_involutive|].
  intros c Hc. apply Hall. apply list_elem_of_In. apply in_rev.
  by apply list_elem_of_In.
Qed.

Lemma break_at_none p l :
  (∀ c, c ∈ l -> p c = false) -> break_at p l = (l, None).
Proof.
  induction l as [|c l IH]; intros Hall; [done|]. cbn.
  rewrite (Hall c) by apply list_elem_of_here.
  rewrite IH; [done|]. intros x Hx. by apply Hall, list_elem_of_further.
Qed.

Lemma break_at_first p a x b :
  (∀ c, c ∈ a -> p c = false) -> p x = true ->
  break_at p (a ++ x :: b) = (a, Some b).
Proof.
  intros Hall Hx. induction a as [|c a IH]; cbn.
  - by rewrite Hx.
  - rewrite (Hall c) by apply list_elem_of_here.
    rewrite IH; [done|]. intros y Hy. by apply Hall, list_elem_of_further.
Qed.

Lemma digits_from_value acc l :
  Forall (λ c, is_digit c = true) l ->
  digits_from acc l
  = Some (fold_left (λ a c, (10 * a + digit_val c)%Z) l acc).
Proof.
  intros Hall. revert acc. induction Hall as [|c l Hc _ IH]; intros acc; [done|].
  cbn. by rewrite Hc, IH.
Qed.

Lemma pow10_neg (k : nat) :
  (pow10 (0 - Z.of_nat k) == / inject_Z (10 ^ Z.of_nat k))%Q.
Proof.
  unfold pow10. destruct (0 <=? 0 - Z.of_nat k)%Z eqn:E.
  - apply Z.leb_le in E. assert (k = 0%nat) as -> by lia. reflexivity.
  - by replace (- (0 - Z.of_nat k))%Z with (Z.of_nat k) by lia.
Qed.

(** a decimal numeral parses to the number it denotes *)
Lemma parse_decimal ip fp :
  Forall (λ c, is_digit c = true) ip ->
  Forall (λ c, is_digit c = true) fp ->
  ip ≠ [] ->
  parse_chars (ip ++ "."%char :: fp) = Some (decimal ip fp).
Proof.
  intros Hip Hfp Hne. unfold parse_chars.
  assert (Hall : ∀ c, c ∈ ip ++ "."%char :: fp ->
                      is_blank c = false ∧ is_exp_mark c = false).
  { intros c [Hc|Hc]%elem_of_app.
    - rewrite Forall_forall in Hip. by apply Hip, digit_classes in Hc as (? & ? & _).
    - apply elem_of_cons in Hc as [->|Hc]; [done|].
      rewrite Forall_forall in Hfp. by apply Hfp, digit_classes in Hc as (? & ? & _). }
  rewrite strip_by_id by (intros c Hc; by apply Hall).
  destruct ip as [|c0 ip]; [done|].
  assert (Hc0 : is_digit c0 = true) by (by inversion Hip).
  destruct (digit_classes c0 Hc0) as (_ & _ & _ & Hsign).
  rewrite <- app_comm_cons, Hsign, app_comm_cons.
  rewrite break_at_none by (intros c Hc; by apply Hall).
  unfold mantissa. rewrite break_at_first; [|
    intros c Hc; rewrite Forall_forall in Hip;
    by apply Hip, digit_classes in Hc as (_ & _ & ? & _) | done].
  cbn [default exponent].
  rewrite <- app_comm_cons. cbv iota. rewrite app_comm_cons.
  unfold digits. rewrite digits_from_value by (by apply Forall_app).
  f_equal. unfold decimal. apply Qred_complete. fold (value ((c0 :: ip) ++ fp)).
  rewrite pow10_neg. reflexivity.
Qed.

Lemma parse_text l : parse (text l) = parse_chars l.
Proof.
  unfold parse, chars, text. by rewrite list_ascii_of_string_of_list_ascii.
Qed.

Lemma wf_index d c i r :
  Frame.wf d -> Frame.index_of c (columns d) = Some i -> r ∈ rows d ->
  i < length r.
Proof.
  intros Hwf Hi Hr. unfold Frame.wf in Hwf. rewrite Forall_forall in Hwf.
  rewrite (Hwf r Hr). apply index_of_lookup in Hi. by apply lookup_lt_Some in Hi.
Qed.

Lemma wf_map_col f c d : Frame.wf d -> Frame.wf (Frame.map_col f c d).
Proof.
  unfold Frame.map_col. destruct (Frame.index_of c (columns d)); [|done].
  unfold Frame.wf. cbn. rewrite !Forall_forall.
  intros Hwf r (r0 & -> & Hr0)%list_elem_of_fmap.
  rewrite length_insert. by apply Hwf.
Qed.

Lemma col_map_col_same f c d :
  Frame.wf d -> Frame.col (Frame.map_col f c d) c = map f (Frame.col d c).
Proof.
  intros Hwf. unfold Frame.col, Frame.map_col.
  destruct (Frame.index_of c (columns d)) as [i|] eqn:Hi; cbn; rewrite Hi; [|done].
  rewrite !map_map. apply map_ext_in. intros r Hr%list_elem_of_In.
  rewrite at_insert. by rewrite decide_True by by eapply wf_index.
Qed.

Lemma col_map_col_other f c c' d :
  c ≠ c' -> Frame.col (Frame.map_col f c' d) c = Frame.col d c.
Proof.
  intros Hne. unfold Frame.col, Frame.map_col.
  destruct (Frame.index_of c' (columns d)) as [j|] eqn:Hj; [|done]. cbn.
  destruct (Frame.index_of c (columns d)) as [i|] eqn:Hi; [|done].
  rewrite map_map. apply map_ext. intros r. apply at_insert_ne.
  intros ->. apply Hne. by eapply index_of_inj.
Qed.

Section Table.
Context `{PandasOracle}.

Lemma wf_currency_col c d : Frame.wf d -> Frame.wf (Value.currency_col c d).
Proof. intros Hwf. unfold Value.currency_col. by do 2 apply wf_map_col. Qed.

Lemma col_currency_col_same c d :
  Frame.wf d ->
  Frame.col (Value.currency_col c d) c = map Value.currency_cell (Frame.col d c).
Proof.
  intros Hwf. unfold Value.currency_col.
  rewrite col_map_col_same by by apply wf_map_col.
  rewrite col_map_col_same by done. by rewrite map_map.
Qed.

Lemma col_currency_col_other c c' d :
  c ≠ c' -> Frame.col (Value.currency_col c' d) c = Frame.col d c.
Proof.
  intros Hne. unfold Value.currency_col. by rewrite !col_map_col_other.
Qed.

Lemma col_currency_other cols d c :
  c ∉ cols -> Frame.col (Value.currency cols d) c = Frame.col d c.
Proof.
  unfold Value.currency. revert d.
  induction cols as [|c' cols IH]; intros d Hc; [done|]. cbn.
  apply not_elem_of_cons in Hc as [Hne Hc].
  by rewrite IH, col_currency_col_other.
Qed.

Lemma col_currency cols d c :
  Frame.wf d -> NoDup cols -> c ∈ cols ->
  Frame.col (Value.currency cols d) c
  = map Value.currency_cell (Frame.col d c).
Proof.
  unfold Value.currency. revert d.
  induction cols as [|c' cols IH]; intros d Hwf Hnd Hc.
  - by apply elem_of_nil in Hc.
  - apply NoDup_cons in Hnd as [Hc' Hnd]. cbn.
    apply elem_of_cons in Hc as [->|Hc].
    + fold (Value.currency cols (Value.currency_col c' d)).
      by rewrite col_currency_other, col_currency_col_same.
    + rewrite IH by (try apply wf_currency_col; done).
      rewrite col_currency_col_other; [done|]. by intros ->.
Qed.

Lemma currency_cell_str s :
  Value.currency_cell (Str s)
  = match parse (text (remove_currency_marks (chars s))) with
    | Some q => Num q
    | None => NA
    end.
Proof. reflexivity. Qed.

(** C3: [clean_currency_cols] never raises and returns a new table whose
    currency columns hold, cell by cell, the coerced values.  A string
    cell becomes the number that the string denotes once '$' and ',' are
    removed, and the missing value when what is left is not a numeral.
    When what is left is a decimal numeral, the cell becomes the number
    the numeral denotes: "$1,234.56" becomes 1234.56. *)
Theorem currency_coercion h df d cols :
  h !! df = Some d ->
  Cleaner.clean_currency_cols df cols h
    = (Ok (length h), h ++ [Value.currency cols d]) ∧
  (Frame.wf d -> NoDup cols -> ∀ c, c ∈ cols ->
     Frame.col (Value.currency cols d) c
     = map Value.currency_cell (Frame.col d c)) ∧
  (∀ s, parse (text (remove_currency_marks (chars s))) = None ->
        Value.currency_cell (Str s) = NA) ∧
  (∀ s q, parse (text (remove_currency_marks (chars s))) = Some q ->
          Value.currency_cell (Str s) = Num q) ∧
  (∀ s ip fp,
     Forall (λ c, is_digit c = true) ip ->
     Forall (λ c, is_digit c = true) fp ->
     ip ≠ [] ->
     remove_currency_marks (chars s) = ip ++ "."%char :: fp ->
     Value.currency_cell (Str s) = Num (decimal ip fp)) ∧
  Value.currency_cell (Str "$1,234.56") = Num (Qred 1234.56).
Proof.
  intros E. split; [by apply clean_currency_cols_run|].
  split; [intros; by apply col_currency|].
  split; [intros s Hs; by rewrite currency_cell_str, Hs|].
  split; [intros s q Hs; by rewrite currency_cell_str, Hs|].
  split; [|by vm_compute].
  intros s ip fp Hip Hfp Hne Hs.
  by rewrite currency_cell_str, Hs, parse_text, parse_decimal.
Qed.

End Table.

Lemma currency_coercion_witness :
  Cleaner.clean_currency_cols (H := Samples.oracle)
    0 ["price"; "service_fee"] [raw_prices]
  = (Ok 1%nat,
     [raw_prices;
      {| columns := ["id"; "price"; "service_fee"];
         rows := [[Num 1; Num (Qred 1234.56); Num 247];
                  [Num 2; Num 966; NA];
                  [Num 3; NA; Num 12];
                  [Num 4; NA; Num (Qred 1000000.5)]] |}]).
Proof.
  exact (proj1 (currency_coercion (H := Samples.oracle)
                  [raw_prices] 0%nat raw_prices ["price"; "service_fee"] eq_refl)).
Defined.

End Currency.

(** ** Running the cleaner on its own output *)

Module Idempotence.
Import Run FrameFacts SeriesFacts CleanerRun Effect Bounds Checks Currency.
Import Text.

(** *** Header names *)

Lemma lower_char_not_upper c : is_upper (lower_char c) = false.
Proof. by destruct c as [[] [] [] [] [] [] [] []]. Qed.

Lemma lower_char_space c : is_space (lower_char c) = is_space c.
Proof. by destruct c as [[] [] [] [] [] [] [] []]. Qed.

Lemma replace_ws_from_chars b l c :
  c ∈ replace_ws_from b l -> c = "_"%char ∨ (c ∈ l ∧ is_space c = false).
Proof.
  revert b. induction l as [|x l IH]; intros b; cbn.
  - by intros ?%elem_of_nil.
  - destruct (is_space x) eqn:Hx.
    + destruct b.
      * intros [?|[? ?]]%IH; [by left|right]. split; [by right|done].
      * intros [->|[?|[? ?]]%IH]%elem_of_cons; [by left|by left|right].
        split; [by right|done].
    + intros [->|[?|[? ?]]%IH]%elem_of_cons.
      * right. split; [by left|done].
      * by left.
      * right. split; [by right|done].
Qed.

Lemma replace_ws_from_id l :
  (∀ c, c ∈ l -> is_space c = false) -> replace_ws_from false l = l.
Proof.
  induction l as [|x l IH]; intros Hall; [done|]. cbn.
  rewrite (Hall x) by apply list_elem_of_here.
  rewrite IH; [done|]. intros c Hc. by apply Hall, list_elem_of_further.
Qed.

Lemma lower_id l : (∀ c, c ∈ l -> is_upper c = false) -> lower l = l.
Proof.
  induction l as [|x l IH]; intros Hall; [done|]. cbn. unfold lower_char at 1.
  rewrite (Hall x) by apply list_elem_of_here.
  fold (lower l). rewrite IH; [done|].
  intros c Hc. by apply Hall, list_elem_of_further.
Qed.

Lemma normalize_name_idempotent c :
  Cleaner.normalize_name (Cleaner.normalize_name c) = Cleaner.normalize_name c.
Proof.
  unfold Cleaner.normalize_name.
  set (l := replace_ws (lower (strip (chars c)))).
  unfold chars at 1, text at 2. rewrite list_ascii_of_string_of_list_ascii.
  assert (Hl : ∀ x, x ∈ l -> is_space x = false ∧ is_upper x = false).
  { intros x [->|[Hx Hs]]%replace_ws_from_chars; [done|]. split; [done|].
    apply list_elem_of_fmap in Hx as (y & -> & _). apply lower_char_not_upper. }
  unfold strip. rewrite strip_by_id by (intros x Hx; by apply Hl).
  rewrite lower_id by (intros x Hx; by apply Hl).
  unfold replace_ws at 1. rewrite replace_ws_from_id; [done|].
  intros x Hx. by apply Hl.
Qed.

Lemma normalize_fixed d : Value.normal_header d -> Value.normalize d = d.
Proof.
  unfold Value.normal_header, Value.normalize, Frame.set_columns. intros ->.
  by destruct d.
Qed.

Lemma normal_header_normalize d : Value.normal_header (Value.normalize d).
Proof.
  unfold Value.normal_header, Value.normalize. cbn. rewrite map_map.
  apply map_ext. intros c. apply normalize_name_idempotent.
Qed.

(** *** Columns rewritten cell by cell *)

Lemma map_col_compose f g c d :
  Frame.map_col g c (Frame.map_col f c d) = Frame.map_col (λ x, g (f x)) c d.
Proof.
  unfold Frame.map_col.
  destruct (Frame.index_of c (columns d)) as [i|] eqn:Hi; cbn; rewrite Hi; [|done].
  f_equal. rewrite map_map. apply map_ext. intros r.
  rewrite at_insert, list_insert_insert_eq. case_decide; [done|].
  by rewrite !list_insert_ge by lia.
Qed.

Lemma map_col_fixed f c d :
  Value.col_all (λ v, f v = v) d c -> Frame.map_col f c d = d.
Proof.
  intros Hall. unfold Frame.map_col.
  destruct (Frame.index_of c (columns d)) as [i|] eqn:Hi; [|done].
  destruct d as [cs rs]. cbn in *. f_equal.
  rewrite <- (map_id rs) at 2. apply map_ext_in. intros r Hr%list_elem_of_In.
  apply insert_at_id. intros v Hv. by eapply Hall.
Qed.

Lemma col_all_map_col_same (P : cell -> Prop) f c d :
  (∀ v, P (f v)) -> Value.col_all P (Frame.map_col f c d) c.
Proof.
  intros HP i r v. rewrite columns_map_col. intros Hi.
  unfold Frame.map_col. rewrite Hi. cbn.
  intros (r0 & -> & Hr0)%list_elem_of_fmap Hv.
  apply list_lookup_insert_Some in Hv as [(_ & <- & _)|[? _]]; done.
Qed.

Lemma col_all_map_col_other (P : cell -> Prop) f c c' d :
  c ≠ c' -> Value.col_all P d c -> Value.col_all P (Frame.map_col f c' d) c.
Proof.
  intros Hne Hall i r v. rewrite columns_map_col. intros Hi.
  unfold Frame.map_col.
  destruct (Frame.index_of c' (columns d)) as [j|] eqn:Hj; [|by apply Hall].
  cbn. intros (r0 & -> & Hr0)%list_elem_of_fmap Hv.
  rewrite list_lookup_insert_ne in Hv; [by eapply Hall|].
  intros ->. apply Hne. by eapply index_of_inj.
Qed.

Lemma col_all_rows (P : cell -> Prop) c d d' :
  columns d' = columns d -> (∀ r, r ∈ rows d' -> r ∈ rows d) ->
  Value.col_all P d c -> Value.col_all P d' c.
Proof.
  intros Hc Hr Hall i r v Hi Hin Hv. rewrite Hc in Hi. eapply Hall; eauto.
Qed.

Lemma col_all_impl (P Q : cell -> Prop) c d :
  (∀ v, P v -> Q v) -> Value.col_all P d c -> Value.col_all Q d c.
Proof. intros HPQ Hall i r v Hi Hin Hv. eapply HPQ, Hall; eauto. Qed.

Lemma col_all_absent (P : cell -> Prop) c d :
  Frame.index_of c (columns d) = None -> Value.col_all P d c.
Proof. intros Hn i r v Hi. congruence. Qed.

Lemma foldl_fixed {A B} (f : A -> B -> A) a l :
  (∀ x, x ∈ l -> f a x = a) -> foldl f a l = a.
Proof.
  induction l as [|x l IH]; intros Hall; [done|]. cbn.
  rewrite (Hall x) by apply list_elem_of_here.
  apply IH. intros y Hy. by apply Hall, list_elem_of_further.
Qed.

(** *** A trim that has nothing to drop *)

Lemma filter_rows_fixed p d :
  (∀ r, r ∈ rows d -> p r = true) -> Frame.filter_rows p d = d.
Proof.
  intros Hall. unfold Frame.filter_rows. rewrite filter_all by done.
  by destruct d.
Qed.

Lemma remove_outliers_bounds_fixed h df d c lo hi :
  h !! df = Some d ->
  forallb Value.comparable (Frame.col d c) = true ->
  (∀ r, r ∈ rows d -> Value.kept d c lo hi r = true) ->
  ∃ out h', Cleaner.remove_outliers_bounds df c lo hi h = (Ok out, h')
            ∧ h' !! out = Some d.
Proof.
  intros E Hcmp Hkept.
  destruct (Frame.index_of c (columns d)) as [i|] eqn:Hi.
  - rewrite (remove_outliers_bounds_present _ _ _ _ _ _ _ E Hi), Hcmp.
    do 2 eexists. split; [done|]. rewrite filter_rows_fixed; [apply lookup_new|].
    intros r Hr. specialize (Hkept r Hr).
    unfold Value.kept in Hkept. by rewrite (cell_of_index _ _ i) in Hkept.
  - rewrite (remove_outliers_bounds_absent _ _ _ _ _ _ E Hi). eauto.
Qed.

Lemma hard_bounds_fixed h df d :
  h !! df = Some d ->
  forallb Value.comparable (Frame.col d "price") = true ->
  forallb Value.comparable (Frame.col d "availability_365") = true ->
  (∀ r, r ∈ rows d -> Value.kept d "price" 0 10000 r = true) ->
  (∀ r, r ∈ rows d -> Value.kept d "availability_365" 0 365 r = true) ->
  ∃ out h', Cleaner.hard_bounds df h = (Ok out, h') ∧ h' !! out = Some d.
Proof.
  intros E Hcp Hca Hkp Hka. unfold Cleaner.hard_bounds. rewrite bind_run.
  destruct (remove_outliers_bounds_fixed h df d "price" 0 10000 E Hcp Hkp)
    as (df1 & h1 & -> & E1).
  by apply remove_outliers_bounds_fixed.
Qed.

Section Main.
Context `{PandasOracle}.

(** *** [main], step by step *)

Lemma main_run h df d :
  h !! df = Some d ->
  let d1 := Value.normalize d in
  let d2 := Value.currency (Value.currency_cols_present d1) d1 in
  let d3 := Value.dates ["last_review"] d2 in
  let d4 := Value.fill Value.cols_with_defaults d3 in
  let h3 := h ++ [d1] ++ [d2] ++ [d3] in
  Cleaner.main df h
  = (df ← Cleaner.hard_bounds (length h3);
     Cleaner.sanity_checks df;; mret df) (h3 ++ [d4]).
Proof.
  intros E d1 d2 d3 d4 h3. unfold Cleaner.main.
  rewrite bind_run, (normalize_columns_run _ _ _ E). fold d1.
  rewrite bind_run, (columns_of_run _ _ d1) by apply lookup_new.
  rewrite bind_run, (clean_currency_cols_run _ _ d1) by apply lookup_new.
  fold (Value.currency_cols_present d1). fold d2.
  rewrite bind_run, (parse_date_cols_run _ _ d2) by apply lookup_new.
  fold d3.
  rewrite bind_run, (fill_missing_values_run _ _ d3) by apply lookup_new.
  fold Value.cols_with_defaults. fold d4.
  unfold h3. by rewrite !app_assoc.
Qed.

(** *** The shape of a prepared table *)

Lemma columns_currency cols d : columns (Value.currency cols d) = columns d.
Proof.
  unfold Value.currency. revert d. induction cols as [|c cols IH]; intros d; [done|].
  cbn. rewrite IH. unfold Value.currency_col. by rewrite !columns_map_col.
Qed.

Lemma columns_dates cols d : columns (Value.dates cols d) = columns d.
Proof.
  unfold Value.dates. revert d. induction cols as [|c cols IH]; intros d; [done|].
  cbn. by rewrite IH, columns_map_col.
Qed.

Lemma columns_fill defaults d : columns (Value.fill defaults d) = columns d.
Proof.
  unfold Value.fill. revert d.
  induction defaults as [|e defaults IH]; intros d; [done|].
  cbn. by rewrite IH, columns_map_col.
Qed.

Lemma columns_prepared d :
  columns (Value.prepared d) = map Cleaner.normalize_name (columns d).
Proof.
  unfold Value.prepared. cbv zeta.
  by rewrite columns_fill, columns_dates, columns_currency.
Qed.

Lemma currency_col_map c d :
  Value.currency_col c d = Frame.map_col Value.currency_cell c d.
Proof. unfold Value.currency_col. by rewrite map_col_compose. Qed.

Lemma currency_cell_comparable v :
  Value.comparable (Value.currency_cell v) = true.
Proof.
  unfold Value.currency_cell.
  destruct (Series.str_replace_currency_cell _) as [|q|s|t]; cbn; try done.
  by destruct (Numeral.parse s).
Qed.

Lemma col_all_currency cols d c :
  c ∈ cols ∨ Value.col_all (λ v, Value.comparable v = true) d c ->
  Value.col_all (λ v, Value.comparable v = true) (Value.currency cols d) c.
Proof.
  unfold Value.currency. revert d.
  induction cols as [|c1 cols IH]; intros d Hc; cbn.
  - destruct Hc as [Hc|Hc]; [by apply elem_of_nil in Hc|done].
  - apply IH. rewrite currency_col_map.
    destruct (decide (c = c1)) as [->|Hne].
    + right. apply col_all_map_col_same, currency_cell_comparable.
    + destruct Hc as [[?|?]%elem_of_cons|Hc]; [done|by left|right].
      by apply col_all_map_col_other.
Qed.

Lemma col_all_currency_present d c :
  c ∈ ["price"; "service_fee"] ->
  Value.col_all (λ v, Value.comparable v = true)
    (Value.currency (Value.currency_cols_present d) d) c.
Proof.
  intros Hc. apply col_all_currency.
  destruct (Frame.has (columns d) c) eqn:Hh.
  - left. unfold Value.currency_cols_present. by apply list_elem_of_filter.
  - right. by apply col_all_absent, has_false.
Qed.

Lemma clean_shape_prepared d : Value.clean_shape (Value.prepared d).
Proof.
  unfold Value.clean_shape. split.
  { unfold Value.normal_header. rewrite columns_prepared, map_map.
    apply map_ext. intros c. apply normalize_name_idempotent. }
  unfold Value.prepared, Value.dates, Value.fill, Value.cols_with_defaults.
  cbn [foldl fst snd].
  set (d2 := Value.currency _ _).
  assert (Hp : Value.col_all (λ v, Value.comparable v = true) d2 "price").
  { apply col_all_currency_present. apply list_elem_of_here. }
  assert (Hs : Value.col_all (λ v, Value.comparable v = true) d2 "service_fee").
  { apply col_all_currency_present. apply list_elem_of_further, list_elem_of_here. }
  repeat split.
  - by repeat apply col_all_map_col_other.
  - by repeat apply col_all_map_col_other.
  - do 2 (apply col_all_map_col_other; [done|]).
    apply col_all_map_col_same. intros v. destruct v as [|q|s|t]; cbn; try done.
    + by destruct (time_of_number q).
    + by destruct (parse_time s).
  - apply col_all_map_col_other; [done|].
    apply col_all_map_col_same. by intros [].
  - apply col_all_map_col_same. by intros [].
Qed.

Lemma clean_shape_rows d d' :
  columns d' = columns d -> (∀ r, r ∈ rows d' -> r ∈ rows d) ->
  Value.clean_shape d -> Value.clean_shape d'.
Proof.
  intros Hc Hr (Hn & Hp & Hs & Hl & Hm & Hv). unfold Value.clean_shape.
  split; [unfold Value.normal_header; by rewrite Hc|].
  repeat split; by eapply col_all_rows.
Qed.

Lemma col_all_elem d c i r v :
  Frame.index_of c (columns d) = Some i -> r ∈ rows d -> r !! i = Some v ->
  v ∈ Frame.col d c.
Proof.
  intros Hi Hr Hv. unfold Frame.col. rewrite Hi.
  apply list_elem_of_fmap. exists r. split; [|done].
  unfold Frame.at_. by rewrite Hv.
Qed.

(** steps 1 to 4 change nothing in a table that has their shape, when
    the numbers of its currency columns read back from their [str] *)
Lemma prepared_fixed d :
  Value.clean_shape d ->
  (∀ q, Num q ∈ Frame.col d "price" ∨ Num q ∈ Frame.col d "service_fee" ->
        Value.round_trips q) ->
  Value.prepared d = d.
Proof.
  intros (Hn & Hp & Hs & Hl & Hm & Hv) Hrt. unfold Value.prepared. cbv zeta.
  rewrite (normalize_fixed d Hn).
  assert (Hcell : ∀ c, c = "price" ∨ c = "service_fee" ->
            Value.col_all (λ v, Value.currency_cell v = v) d c).
  { intros c Hc i r v Hi Hr Hv'.
    assert (Hcmp : Value.comparable v = true)
      by (destruct Hc as [-> | ->]; [eapply Hp|eapply Hs]; eauto).
    destruct v as [|q|s|t]; try done.
    assert (Hq : Value.round_trips q).
    { apply Hrt. destruct Hc as [-> | ->]; [left|right];
        by eapply col_all_elem. }
    unfold Value.round_trips in Hq. unfold Value.currency_cell. cbn.
    by rewrite Hq. }
  assert (Hcur : Value.currency (Value.currency_cols_present d) d = d).
  { apply foldl_fixed. intros c [_ Hc]%list_elem_of_filter.
    rewrite currency_col_map. apply map_col_fixed, Hcell.
    apply elem_of_cons in Hc as [->|Hc]; [by left|].
    apply list_elem_of_singleton in Hc as ->. by right. }
  rewrite Hcur.
  assert (Hdat : Value.dates ["last_review"] d = d).
  { cbn. apply map_col_fixed. eapply col_all_impl; [|exact Hl].
    by intros []. }
  rewrite Hdat. unfold Value.fill, Value.cols_with_defaults. cbn [foldl fst snd].
  rewrite (map_col_fixed _ "reviews_per_month" d).
  - apply map_col_fixed. eapply col_all_impl; [|exact Hv]. by intros [].
  - eapply col_all_impl; [|exact Hm]. by intros [].
Qed.

(** C5, amended: running the pipeline of [main] on a table it produced
    succeeds and returns a table with the same columns, the same rows and
    the same cell values, and no row is dropped, provided every number in
    the price and service_fee columns of that table reads back unchanged
    from the text that [str] prints for it.  The currency step prints and
    reads every cell on every run, also the cells that are numbers
    already. *)
Theorem main_idempotent h df d out h' d' :
  h !! df = Some d ->
  Cleaner.main df h = (Ok out, h') ->
  h' !! out = Some d' ->
  (∀ q, Num q ∈ Frame.col d' "price" ∨ Num q ∈ Frame.col d' "service_fee" ->
        Value.round_trips q) ->
  ∃ out2 h2, Cleaner.main out h' = (Ok out2, h2) ∧ h2 !! out2 = Some d'.
Proof.
  intros E Hrun Hd' Hrt.
  rewrite (main_run _ _ _ E) in Hrun. cbv zeta in Hrun. fold (Value.prepared d) in Hrun.
  set (h3 := h ++ _) in Hrun. rewrite bind_run in Hrun.
  destruct (Cleaner.hard_bounds (length h3) (h3 ++ [Value.prepared d]))
    as [[out1|e] h5] eqn:Hb; [|done].
  destruct (hard_bounds_inv _ _ _ _ _ (lookup_new h3 _) Hb)
    as (d5 & Hd5 & _ & Hc5 & Hr5 & Hcp & Hca).
  rewrite bind_run, (sanity_checks_value _ _ _ Hd5) in Hrun.
  destruct (Value.checks d5) as [[]|e] eqn:Hchk; [|done].
  injection Hrun as <- <-. assert (d5 = d') as -> by congruence.
  (* the shape of the result *)
  assert (Hshape : Value.clean_shape d').
  { apply (clean_shape_rows (Value.prepared d)); [done| |apply clean_shape_prepared].
    intros r. rewrite Hr5. intros [_ [_ ?]%list_elem_of_filter]%list_elem_of_filter.
    done. }
  assert (Hkp : ∀ r, r ∈ rows d' -> Value.kept d' "price" 0 10000 r = true).
  { intros r. rewrite Hr5, (kept_columns _ d') by done.
    by intros [_ [? _]%list_elem_of_filter]%list_elem_of_filter. }
  assert (Hka : ∀ r, r ∈ rows d' -> Value.kept d' "availability_365" 0 365 r = true).
  { intros r. rewrite Hr5, (kept_columns _ d') by done.
    by intros [? _]%list_elem_of_filter. }
  (* the second run *)
  rewrite (main_run _ _ _ Hd5). cbv zeta. fold (Value.prepared d').
  rewrite (prepared_fixed d' Hshape Hrt).
  set (k3 := h5 ++ _). rewrite bind_run.
  destruct (hard_bounds_fixed (k3 ++ [d']) (length k3) d' (lookup_new k3 d')
              Hcp Hca Hkp Hka) as (out2 & h2 & -> & Hout2).
  rewrite bind_run, (sanity_checks_value _ _ _ Hout2), Hchk.
  by exists out2, h2.
Qed.

End Main.

Import Samples.

Example main_raw_listings :
  (Cleaner.main 0 [Samples.raw_listings]).1 = Ok 6%nat
  ∧ (Cleaner.main 0 [Samples.raw_listings]).2 !! 6%nat
    = Some Samples.cleaned_listings.
Proof. by vm_compute. Qed.

Lemma main_idempotent_witness :
  ∃ out2 h2,
    Cleaner.main 6 (Cleaner.main 0 [Samples.raw_listings]).2 = (Ok out2, h2)
    ∧ h2 !! out2 = Some Samples.cleaned_listings.
Proof.
  apply (main_idempotent [Samples.raw_listings] 0%nat Samples.raw_listings
           6%nat _ Samples.cleaned_listings eq_refl).
  - vm_compute. reflexivity.
  - vm_compute. reflexivity.
  - intros q [Hq|Hq]; vm_compute in Hq;
      repeat (apply elem_of_cons in Hq as [Hq|Hq];
              [try discriminate; injection Hq as ->; vm_compute; reflexivity|]);
      by apply elem_of_nil in Hq.
Defined.

Example binary64_two_decimals :
  Value.round_trips (H := Binary64.oracle) (Qred 1234.56)
  ∧ float_repr (PandasOracle := Binary64.oracle) (Qred 1234.56) = "1234.56"
  ∧ float_repr (PandasOracle := Binary64.oracle) (Qred 4306.6964029126866)
    = "4306.6964029126875".
Proof. by vm_compute. Qed.

(** C5, as stated, fails when numbers are held as binary64
    ([Binary64.oracle]).  A run of [main] on a table with the raw price
    "$4306.6964029126866" ends normally; a second run, on the table that
    the first returned, prints that price as "4306.6964029126875", reads
    it again and returns a table with another price in that row.  The two
    tables have the same rows otherwise: the price with two decimals
    stays. *)
Lemma main_changes_long_price :
  let first := Cleaner.main (H := Binary64.oracle) 0 [Binary64.long_price] in
  let second := Cleaner.main (H := Binary64.oracle) 5 first.2 in
  first.1 = Ok 5%nat
  ∧ first.2 !! 5%nat = Some Binary64.long_price_cleaned
  ∧ second.1 = Ok 10%nat
  ∧ second.2 !! 10%nat = Some Binary64.long_price_again
  ∧ Binary64.long_price_again ≠ Binary64.long_price_cleaned.
Proof.
  cbv zeta. split; [by vm_compute|]. split; [by vm_compute|].
  split; [by vm_compute|]. split; [by vm_compute|].
  intros Heq. vm_compute in Heq. discriminate Heq.
Qed.

End Idempotence.

(** ** What a second run needs

  The condition of [main_idempotent] cannot be dropped: a table that a
  run of [main] returns as it is holds, in its currency columns, only
  numbers that read back from their text. *)

Module ReadBack.
Import Run FrameFacts SeriesFacts CleanerRun Effect Bounds Checks Currency.
Import Idempotence.

Lemma rows_map_col f c d :
  length (rows (Frame.map_col f c d)) = length (rows d).
Proof.
  unfold Frame.map_col. destruct (Frame.index_of c (columns d)); [|done].
  cbn. apply length_map.
Qed.

Lemma filter_length_id {A} (P : A -> Prop) `{∀ x, Decision (P x)} (l : list A) :
  length (filter P l) = length l -> filter P l = l.
Proof.
  induction l as [|a l IH]; [done|].
  rewrite filter_cons. destruct (decide (P a)); cbn.
  - intros [= Hl]. by rewrite IH.
  - intros Hl. pose proof (length_filter P l). lia.
Qed.

Lemma filter_filter_length_id {A} (P Q : A -> Prop)
    `{∀ x, Decision (P x)} `{∀ x, Decision (Q x)} (l : list A) :
  length (filter P (filter Q l)) = length l -> filter P (filter Q l) = l.
Proof.
  intros Hl.
  pose proof (length_filter P (filter Q l)).
  pose proof (length_filter Q l).
  assert (HQ : filter Q l = l) by (apply filter_length_id; lia).
  rewrite HQ in *. by apply filter_length_id.
Qed.

Section Main.
Context `{PandasOracle}.

Lemma rows_currency cols d :
  length (rows (Value.currency cols d)) = length (rows d).
Proof.
  unfold Value.currency. revert d. induction cols as [|c cols IH]; intros d; [done|].
  cbn. rewrite IH. unfold Value.currency_col. by rewrite !rows_map_col.
Qed.

Lemma rows_dates cols d : length (rows (Value.dates cols d)) = length (rows d).
Proof.
  unfold Value.dates. revert d. induction cols as [|c cols IH]; intros d; [done|].
  cbn. by rewrite IH, rows_map_col.
Qed.

Lemma rows_fill defaults d :
  length (rows (Value.fill defaults d)) = length (rows d).
Proof.
  unfold Value.fill. revert d.
  induction defaults as [|e defaults IH]; intros d; [done|].
  cbn. by rewrite IH, rows_map_col.
Qed.

Lemma rows_prepared d : length (rows (Value.prepared d)) = length (rows d).
Proof.
  unfold Value.prepared. cbv zeta. by rewrite rows_fill, rows_dates, rows_currency.
Qed.

Lemma col_dates_other cols d c :
  c ∉ cols -> Frame.col (Value.dates cols d) c = Frame.col d c.
Proof.
  unfold Value.dates. revert d.
  induction cols as [|c' cols IH]; intros d Hc; [done|]. cbn.
  apply not_elem_of_cons in Hc as [Hne Hc].
  by rewrite IH, col_map_col_other.
Qed.

Lemma col_fill_other defaults d c :
  c ∉ map fst defaults -> Frame.col (Value.fill defaults d) c = Frame.col d c.
Proof.
  unfold Value.fill. revert d.
  induction defaults as [|e defaults IH]; intros d Hc; [done|]. cbn in *.
  apply not_elem_of_cons in Hc as [Hne Hc].
  by rewrite IH, col_map_col_other.
Qed.

(** a number that the currency step leaves as it is reads back *)
Lemma currency_cell_num q :
  Value.currency_cell (Num q) = Num q -> Value.round_trips q.
Proof.
  unfold Value.currency_cell, Value.round_trips. cbn.
  destruct (Numeral.parse _) as [q'|]; [|done]. by intros [= ->].
Qed.

(** the currency columns of a prepared table *)
Lemma col_prepared_currency d c :
  Frame.wf d -> Value.normal_header d ->
  c ∈ ["price"; "service_fee"] -> c ∈ columns d ->
  Frame.col (Value.prepared d) c = map Value.currency_cell (Frame.col d c).
Proof.
  intros Hwf Hnorm Hc Hin. unfold Value.prepared. cbv zeta.
  rewrite (normalize_fixed d Hnorm).
  rewrite col_fill_other, col_dates_other.
  - apply col_currency; [done| |].
    + unfold Value.currency_cols_present. apply NoDup_filter.
      apply NoDup_cons. split; [|apply NoDup_singleton].
      intros [=]%list_elem_of_singleton.
    + apply list_elem_of_filter. split; [by apply has_elem|done].
  - intros [->|[]%elem_of_nil]%elem_of_cons.
    repeat (apply elem_of_cons in Hc as [Hc|Hc]; [discriminate Hc|]).
    by apply elem_of_nil in Hc.
  - cbn. intros Hx.
    repeat (apply elem_of_cons in Hc as [->|Hc];
            [repeat (apply elem_of_cons in Hx as [Hx|Hx]; [discriminate Hx|]);
             by apply elem_of_nil in Hx|]).
    by apply elem_of_nil in Hc.
Qed.

(** When a run of [main] on a table, each row of which has a cell for
    every column, returns a table equal to its argument, every number in
    the price and service_fee columns of the table reads back unchanged
    from the text that [str] prints for it. *)
Lemma main_fixed_reads_back h df d out h' :
  h !! df = Some d -> Frame.wf d ->
  Cleaner.main df h = (Ok out, h') -> h' !! out = Some d ->
  ∀ q, Num q ∈ Frame.col d "price" ∨ Num q ∈ Frame.col d "service_fee" ->
       Value.round_trips q.
Proof.
  intros E Hwf Hrun Hout.
  rewrite (main_run _ _ _ E) in Hrun. cbv zeta in Hrun.
  fold (Value.prepared d) in Hrun.
  set (h3 := h ++ _) in Hrun. rewrite bind_run in Hrun.
  destruct (Cleaner.hard_bounds (length h3) (h3 ++ [Value.prepared d]))
    as [[out1|e] h5] eqn:Hb; [|done].
  destruct (hard_bounds_inv _ _ _ _ _ (lookup_new h3 _) Hb)
    as (d5 & Hd5 & _ & Hc5 & Hr5 & _).
  rewrite bind_run, (sanity_checks_value _ _ _ Hd5) in Hrun.
  destruct (Value.checks d5) as [[]|e]; [|done].
  injection Hrun as <- <-. assert (d5 = d) as -> by congruence.
  assert (Hrows : rows (Value.prepared d) = rows d).
  { symmetry. etrans; [exact Hr5|]. apply filter_filter_length_id.
    by rewrite <- Hr5, rows_prepared. }
  assert (Hp : Value.prepared d = d).
  { destruct (Value.prepared d), d. cbn in *. congruence. }
  assert (Hnorm : Value.normal_header d).
  { unfold Value.normal_header. by rewrite <- columns_prepared, Hp. }
  assert (Hcol : ∀ c q, c ∈ ["price"; "service_fee"] ->
            Num q ∈ Frame.col d c -> Value.round_trips q).
  { intros c q Hc Hq.
    assert (Hin : c ∈ columns d).
    { apply has_elem, has_true. unfold Frame.col in Hq.
      destruct (Frame.index_of c (columns d)); [eauto|by apply elem_of_nil in Hq]. }
    pose proof (col_prepared_currency d c Hwf Hnorm Hc Hin) as Hmap.
    rewrite Hp in Hmap.
    apply list_elem_of_lookup in Hq as [k Hk].
    pose proof (f_equal (λ l, l !! k) Hmap) as Hk'. cbn in Hk'.
    rewrite list_lookup_fmap, Hk in Hk'.
    apply currency_cell_num. by injection Hk' as <-. }
  intros q [Hq|Hq]; eapply Hcol; [|exact Hq| |exact Hq];
    [apply list_elem_of_here|apply list_elem_of_further, list_elem_of_here].
Qed.

End Main.

End ReadBack.

(** ** The dashboard's filter block *)

Module DashboardFacts.
Import FrameFacts SeriesFacts Bounds Dashboard ViewSpec.

Lemma between_run s lo hi :
  Series.between s lo hi
  = if forallb Value.comparable s
    then Ok (map (in_interval (lo, hi)) s) else Raise TypeError.
Proof.
  unfold Series.between. rewrite ge_run, le_run.
  destruct (forallb Value.comparable s); [|done]. cbn.
  unfold Series.mask_and. by rewrite zip_with_map.
Qed.

Lemma getitem_col d c i :
  Frame.index_of c (columns d) = Some i ->
  Frame.getitem d c = Ok (Frame.col d c).
Proof. intros Hi. unfold Frame.getitem, Frame.col. by rewrite Hi. Qed.

Lemma col_rows d c i :
  Frame.index_of c (columns d) = Some i ->
  Frame.col d c = map (Frame.at_ i) (rows d).
Proof. intros Hi. unfold Frame.col. by rewrite Hi. Qed.

Lemma on_col_present d c i test r :
  Frame.index_of c (columns d) = Some i ->
  on_col d c test r = test (Frame.at_ i r).
Proof. intros Hi. unfold on_col. by rewrite (cell_of_index _ _ i). Qed.

Lemma on_col_absent d c test r :
  Frame.index_of c (columns d) = None -> on_col d c test r = true.
Proof. intros Hi. unfold on_col, Value.cell_of. by rewrite Hi. Qed.

(** the mask a numeric range filter contributes, [None] for [True] *)
Lemma range_filter_run d c (range : Q * Q) :
  forallb Value.comparable (Frame.col d c) = true ->
  (if Frame.has (columns d) c then
     s ← Frame.getitem d c;
     m ← Series.between s range.1 range.2;
     mret (Some m)
   else mret None)
  = Ok (if Frame.has (columns d) c
        then Some (map (on_col d c (in_interval range)) (rows d))
        else None).
Proof.
  intros Hcmp. destruct (Frame.has (columns d) c) eqn:Hc; [|done].
  apply has_true in Hc as [i Hi]. rewrite (getitem_col _ _ i Hi). cbn.
  rewrite between_run, Hcmp. cbn. rewrite (col_rows _ _ i Hi), map_map.
  do 2 f_equal. apply map_ext. intros r.
  rewrite (on_col_present _ _ i) by done. by destruct range.
Qed.

Lemma and_opt_rows {A} (p q : A -> bool) (present : bool) (l : list A) :
  (present = false -> ∀ a, q a = true) ->
  and_opt (map p l) (if present then Some (map q l) else None)
  = map (λ a, p a && q a) l.
Proof.
  intros Hq. destruct present; cbn.
  - unfold Series.mask_and. by rewrite zip_with_map.
  - apply map_ext. intros a. by rewrite Hq, andb_true_r.
Qed.

Lemma select_filter_run d c (choice : list cell) (p : list cell -> bool) :
  match (if Frame.has (columns d) c then Some choice else None) with
  | Some sel =>
      s ← Frame.getitem d c;
      mret (Series.mask_and (map p (rows d)) (Series.isin sel s))
  | None => mret (map p (rows d))
  end
  = Ok (map (λ r, p r && on_col d c (chosen choice) r) (rows d)).
Proof.
  destruct (Frame.has (columns d) c) eqn:Hc.
  - apply has_true in Hc as [i Hi]. rewrite (getitem_col _ _ i Hi). cbn.
    rewrite (col_rows _ _ i Hi). unfold Series.isin, Series.mask_and.
    rewrite map_map, zip_with_map. f_equal.
    apply map_ext. intros r. by rewrite (on_col_present _ _ i).
  - apply has_false in Hc. cbn. f_equal. apply map_ext. intros r.
    by rewrite on_col_absent, andb_true_r.
Qed.

(** With a price column, and numbers in the columns that are compared,
    the filter block computes the view of the specification. *)
Theorem dff_refines_spec d w :
  "price" ∈ columns d ->
  numeric_filters d ->
  dff d w = Ok (filtered_view d w).
Proof.
  intros Hp (Hcp & Hca & Hcr). apply has_elem, has_true in Hp as [i Hi].
  unfold dff, mask. rewrite (getitem_col _ _ i Hi). cbn [mbind result_bind].
  unfold price_range. rewrite between_run, Hcp. cbn [mbind result_bind].
  rewrite (range_filter_run d "availability_365" (avail_range d w) Hca).
  cbn [mbind result_bind].
  rewrite (range_filter_run d "reviews_per_month" (rpm_range d w) Hcr).
  cbn [mbind result_bind].
  rewrite (col_rows _ _ i Hi), map_map.
  rewrite (map_ext _ (on_col d "price" (in_interval (price_choice w)))).
  2:{ intros r. rewrite (on_col_present _ _ i) by done. by destruct (price_choice w). }
  rewrite and_opt_rows.
  2:{ intros Hh%has_false r. by apply on_col_absent. }
  rewrite and_opt_rows.
  2:{ intros Hh%has_false r. by apply on_col_absent. }
  unfold selected_ng, selected_rt.
  rewrite select_filter_run. cbn [mbind result_bind].
  rewrite select_filter_run. cbn [mbind result_bind mret result_ret].
  f_equal. unfold Frame.getitem_mask, filtered_view, Frame.filter_rows. f_equal.
  rewrite <- select_map. f_equal. apply map_ext. intros r.
  unfold passes, avail_range, rpm_range.
  destruct (Frame.has (columns d) "availability_365") eqn:Ha;
    destruct (Frame.has (columns d) "reviews_per_month") eqn:Hr;
    try apply has_false in Ha; try apply has_false in Hr;
    rewrite ?(on_col_absent d "availability_365") by done;
    rewrite ?(on_col_absent d "reviews_per_month") by done;
    reflexivity.
Qed.

Lemma dff_refines_spec_witness :
  dff Samples.priced_boroughs Samples.all_selected
  = Ok {| columns := columns Samples.priced_boroughs;
          rows := [[Num 966; Str "Brooklyn"; Str "Private room"];
                   [Num 142; Str "Manhattan"; Str "Entire home/apt"];
                   [Num 620; Str "Manhattan"; Str "Private room"]] |}.
Proof.
  rewrite (dff_refines_spec Samples.priced_boroughs Samples.all_selected).
  - reflexivity.
  - by apply has_elem.
  - by repeat split.
Defined.

(** *** Loaded tables *)

Lemma col_all_comparable d c :
  Value.col_all (λ v, Value.comparable v = true) d c ->
  forallb Value.comparable (Frame.col d c) = true.
Proof.
  intros Hall. unfold Frame.col.
  destruct (Frame.index_of c (columns d)) as [i|] eqn:Hi; [|done].
  apply forallb_forall. intros v (r & <- & Hr)%in_map_iff.
  unfold Frame.at_. destruct (r !! i) as [x|] eqn:Hx; [|done]. cbn.
  eapply Hall; [done| |done]. by apply list_elem_of_In.
Qed.

Lemma to_numeric_cell_comparable v :
  Value.comparable (Series.to_numeric_cell v) = true.
Proof. destruct v as [|q|s|t]; cbn; try done. by destruct (Numeral.parse s). Qed.

(** [load_data] leaves numbers and missing values in the columns that the
    range filters compare *)
Lemma load_data_numeric file : numeric_filters (load_data file).
Proof.
  unfold load_data. cbv zeta. cbn [foldl].
  set (d1 := Frame.set_columns _ _).
  set (d2 := Frame.map_col _ "long" _).
  assert (Hall : ∀ c, c ∈ ["price"; "availability_365"; "reviews_per_month"] ->
            Value.col_all (λ v, Value.comparable v = true) d2 c).
  { intros c Hc. unfold d2.
    repeat (apply elem_of_cons in Hc as [->|Hc]);
      [..|by apply elem_of_nil in Hc];
      repeat (apply Idempotence.col_all_map_col_other; [done|]);
      apply Idempotence.col_all_map_col_same, to_numeric_cell_comparable. }
  assert (Hkeep : ∀ c, c ∈ ["price"; "availability_365"; "reviews_per_month"] ->
            forallb Value.comparable
              (Frame.col (dropna_subset
                 (filter (λ c, Frame.has (columns d2) c = true)
                    ["price"; "room_type"; "neighbourhood_group"; "lat"; "long"])
                 d2) c) = true).
  { intros c Hc. apply col_all_comparable.
    apply (Idempotence.col_all_rows _ _ d2); [done| |by apply Hall].
    intros r. unfold dropna_subset, Frame.filter_rows. cbn.
    by intros [_ ?]%list_elem_of_filter. }
  repeat split; apply Hkeep; repeat constructor.
Qed.

(** On every loaded table that has a price column the filter block
    computes the view of the specification. *)
Theorem loaded_view_refines_spec file w :
  "price" ∈ columns (load_data file) ->
  dff (load_data file) w = Ok (filtered_view (load_data file) w).
Proof. intros Hp. apply dff_refines_spec; [done|apply load_data_numeric]. Qed.

Example load_boroughs :
  load_data Samples.boroughs = Samples.boroughs
  ∧ empty Samples.boroughs = false.
Proof. by vm_compute. Qed.

Example load_renames_and_drops :
  load_data {| columns := ["Price"; "LAT"; "room_type"];
               rows := [[Str "12"; Num 1; NA]; [Str "13"; NA; Str "a"];
                        [Str "z"; Num 1; Str "a"]; [Str "14"; Num 1; Str "a"]] |}
  = {| columns := ["price"; "lat"; "room_type"];
       rows := [[Num 14; Num 1; Str "a"]] |}.
Proof. by vm_compute. Qed.

(** C1 (the code departs from it): without a price column the filter
    block raises [KeyError] where the specification has a view that the
    absent price filter leaves unrestricted.  The other four filters are
    guarded: see [dff_refines_spec]. *)
Theorem dff_raises_without_price d w :
  "price" ∉ columns d ->
  dff d w = Raise (KeyError "price") ∧ dff d w ≠ Ok (filtered_view d w).
Proof.
  intros Hp. assert (Hi : Frame.index_of "price" (columns d) = None).
  { apply has_false. destruct (Frame.has (columns d) "price") eqn:Hh; [|done].
    by apply has_elem in Hh. }
  assert (Hr : dff d w = Raise (KeyError "price")).
  { unfold dff, mask, Frame.getitem. by rewrite Hi. }
  split; [done|]. by rewrite Hr.
Qed.

Lemma dff_raises_without_price_witness :
  dff Samples.boroughs Samples.all_selected = Raise (KeyError "price")
  ∧ dff Samples.boroughs Samples.all_selected
    ≠ Ok (filtered_view Samples.boroughs Samples.all_selected).
Proof.
  apply (dff_raises_without_price Samples.boroughs Samples.all_selected).
  intros Hp%has_elem. discriminate Hp.
Defined.

Example view_of_boroughs :
  filtered_view Samples.boroughs Samples.all_selected = Samples.boroughs.
Proof. reflexivity. Qed.

Lemma filter_none {A} (P : A -> Prop) `{∀ x, Decision (P x)} (l : list A) :
  (∀ x, x ∈ l -> ¬ P x) -> filter P l = [].
Proof.
  induction l as [|a l IH]; intros Hall; [done|].
  rewrite filter_cons_False by (apply Hall, list_elem_of_here).
  apply IH. intros x Hx. by apply Hall, list_elem_of_further.
Qed.

Lemma empty_choice_view d w :
  ("neighbourhood_group" ∈ columns d ∧ ng_choice w = [])
  ∨ ("room_type" ∈ columns d ∧ rt_choice w = []) ->
  rows (filtered_view d w) = [].
Proof.
  intros Hsel. unfold filtered_view, Frame.filter_rows. cbn.
  apply filter_none. intros r _. unfold passes.
  destruct Hsel as [[Hc Hw]|[Hc Hw]];
    apply has_elem, has_true in Hc as [i Hi];
    rewrite (on_col_present _ _ i _ _ Hi), Hw; cbn;
    rewrite ?andb_false_r; done.
Qed.

(** With a price column, an empty multi-select on a categorical column
    that the table has leaves no row in the filtered view. *)
Theorem empty_selection_empty_view d w :
  "price" ∈ columns d ->
  numeric_filters d ->
  ("neighbourhood_group" ∈ columns d ∧ ng_choice w = [])
  ∨ ("room_type" ∈ columns d ∧ rt_choice w = []) ->
  ∃ v, dff d w = Ok v ∧ columns v = columns d ∧ rows v = [].
Proof.
  intros Hp Hnum Hsel. exists (filtered_view d w).
  split; [by apply dff_refines_spec|]. split; [done|].
  by apply empty_choice_view.
Qed.

(** On every loaded table that has a price column, an empty multi-select
    on a categorical column of the table leaves no row. *)
Theorem loaded_empty_selection file w :
  let d := load_data file in
  "price" ∈ columns d ->
  ("neighbourhood_group" ∈ columns d ∧ ng_choice w = [])
  ∨ ("room_type" ∈ columns d ∧ rt_choice w = []) ->
  ∃ v, dff d w = Ok v ∧ columns v = columns d ∧ rows v = [].
Proof.
  intros d Hp Hsel. apply empty_selection_empty_view; [done| |done].
  apply load_data_numeric.
Qed.

(** C8 (the code departs from it): on a table that has the categorical
    column but no price column, an empty multi-select does not give an
    empty view: the filter block raises [KeyError], while the view of the
    specification is empty.  The filter block is a function of the table
    and the widget values, so equal inputs give equal outcomes. *)
Theorem empty_selection_raises_without_price d w :
  "neighbourhood_group" ∈ columns d ->
  ng_choice w = [] ->
  "price" ∉ columns d ->
  rows (filtered_view d w) = []
  ∧ dff d w = Raise (KeyError "price")
  ∧ ¬ ∃ v, dff d w = Ok v ∧ rows v = [].
Proof.
  intros Hc Hw Hp. split; [apply empty_choice_view; by left|].
  assert (Hi : Frame.index_of "price" (columns d) = None).
  { apply has_false. destruct (Frame.has (columns d) "price") eqn:Hh; [|done].
    by apply has_elem in Hh. }
  assert (Hr : dff d w = Raise (KeyError "price")).
  { unfold dff, mask, Frame.getitem. by rewrite Hi. }
  split; [done|]. rewrite Hr. by intros (v & ? & _).
Qed.

Lemma empty_selection_raises_without_price_witness :
  rows (filtered_view Samples.boroughs Samples.no_group_selected) = []
  ∧ dff Samples.boroughs Samples.no_group_selected = Raise (KeyError "price")
  ∧ ¬ ∃ v, dff Samples.boroughs Samples.no_group_selected = Ok v ∧ rows v = [].
Proof.
  apply (empty_selection_raises_without_price
           Samples.boroughs Samples.no_group_selected).
  - by apply has_elem.
  - reflexivity.
  - intros Hp%has_elem. discriminate Hp.
Defined.

Lemma empty_selection_empty_view_witness :
  ∃ v, dff Samples.priced_boroughs Samples.no_group_selected = Ok v
       ∧ columns v = columns Samples.priced_boroughs ∧ rows v = [].
Proof.
  apply (empty_selection_empty_view
           Samples.priced_boroughs Samples.no_group_selected).
  - by apply has_elem.
  - by repeat split.
  - left. split; [by apply has_elem|reflexivity].
Defined.

End DashboardFacts.

(** ** Sorting and grouping *)

Module GroupFacts.
Import Group FrameFacts SeriesFacts.

Section Sort.
Context {A : Type} (before : A -> A -> bool).

Lemma insert_perm x l : insert before x l ≡ₚ x :: l.
Proof.
  induction l as [|y l IH]; [done|]. cbn.
  destruct (before x y); [done|]. rewrite IH. apply Permutation_swap.
Qed.

Lemma sort_perm l : sort before l ≡ₚ l.
Proof.
  induction l as [|x l IH]; [done|]. cbn.
  by rewrite insert_perm, IH.
Qed.

Hypothesis before_total : ∀ a b, before a b = false -> before b a = true.

Lemma insert_sorted x l :
  Sorted (λ a b, before a b = true) l ->
  Sorted (λ a b, before a b = true) (insert before x l).
Proof using before_total.
  induction 1 as [|y l Hl IH Hhd]; cbn.
  - by repeat constructor.
  - destruct (before x y) eqn:Hxy.
    + constructor; [by constructor|by constructor].
    + constructor; [done|].
      destruct l as [|z l]; cbn in *.
      * constructor. by apply before_total.
      * destruct (before x z); constructor; [by apply before_total|].
        by inversion Hhd.
Qed.

Lemma sort_sorted l : Sorted (λ a b, before a b = true) (sort before l).
Proof using before_total.
  induction l as [|x l IH]; [constructor|]. cbn. by apply insert_sorted.
Qed.

End Sort.

Lemma value_before_total a b :
  value_before a b = false -> value_before b a = true.
Proof.
  destruct a as [|p| |], b as [|q| |]; cbn; try done.
  intros Hf. apply Qle_bool_iff. apply Qlt_le_weak.
  apply Qnot_le_lt. intros Hle%Qle_bool_iff. congruence.
Qed.

Lemma sort_values_desc_sorted g : Summary.descending (sort_values_desc g).
Proof.
  apply (sort_sorted (λ a b, value_before a.2 b.2)).
  intros a b. apply value_before_total.
Qed.

Lemma sort_values_desc_perm g : sort_values_desc g ≡ₚ g.
Proof. apply sort_perm. Qed.

Lemma select_elem {A} (m : bools) (l : list A) x :
  x ∈ Frame.select m l -> x ∈ l.
Proof.
  revert l. induction m as [|b m IH]; intros [|a l]; cbn;
    try by intros ?%elem_of_nil.
  destruct b.
  - intros [->|?]%elem_of_cons; [apply list_elem_of_here|].
    apply list_elem_of_further. by apply IH.
  - intros ?. apply list_elem_of_further. by apply IH.
Qed.

Lemma members_comparable k rk vs :
  forallb Value.comparable vs = true ->
  forallb Value.comparable (members k rk vs) = true.
Proof.
  rewrite !forallb_forall. intros Hall v Hv%list_elem_of_In.
  apply Hall, list_elem_of_In. by eapply select_elem.
Qed.

Lemma mean_run s :
  forallb Value.comparable s = true ->
  Series.mean s = Ok (Summary.mean_value s).
Proof.
  intros Hcmp. unfold Series.mean, Summary.mean_value.
  rewrite (Checks.numbers_dropna _ Hcmp). cbn.
  by destruct (Value.numbers s).
Qed.

(** an aggregation that cannot fail, over columns that the table has *)
Lemma agg_run (f : series -> result cell) (g : series -> cell) d by_ idx c i :
  Series.traverse (index_of_col d) by_ = Ok idx ->
  Frame.index_of c (columns d) = Some i ->
  (∀ k, f (members k (row_keys d idx) (Frame.col d c))
        = Ok (g (members k (row_keys d idx) (Frame.col d c)))) ->
  agg f d by_ c = Ok (Summary.per_group g (row_keys d idx) (Frame.col d c)).
Proof.
  intros Hidx Hi Hf. unfold agg. rewrite Hidx. cbn [mbind result_bind].
  rewrite (DashboardFacts.getitem_col _ _ i Hi). cbn [mbind result_bind].
  apply traverse_ok. intros k _. by rewrite Hf.
Qed.

Lemma index_of_col_run d c i :
  Frame.index_of c (columns d) = Some i -> index_of_col d c = Ok i.
Proof. intros Hi. unfold index_of_col. by rewrite Hi. Qed.

(** *** Keys *)

Lemma cell_eqb_refl a : cell_eqb a a = true.
Proof.
  destruct a; cbn; [done|apply Qeq_bool_refl|apply String.eqb_refl|apply Z.eqb_refl].
Qed.

Lemma cell_eqb_sym a b : cell_eqb a b = true -> cell_eqb b a = true.
Proof.
  destruct a, b; cbn; try done.
  - apply Qeq_bool_sym.
  - by rewrite String.eqb_sym.
  - by rewrite Z.eqb_sym.
Qed.

Lemma cell_eqb_trans a b c :
  cell_eqb a b = true -> cell_eqb b c = true -> cell_eqb a c = true.
Proof.
  destruct a, b, c; cbn; try done.
  - apply Qeq_bool_trans.
  - by intros ->%String.eqb_eq.
  - by intros ->%Z.eqb_eq.
Qed.

#[local] Instance same_key_equiv : Equivalence Summary.same_key.
Proof.
  unfold Summary.same_key. split.
  - intros a. induction a as [|x a IH]; [done|]. cbn.
    by rewrite cell_eqb_refl, IH.
  - intros a. induction a as [|x a IH]; intros [|y b]; cbn; try done.
    intros [Hx Ha]%andb_true_iff. by rewrite (cell_eqb_sym _ _ Hx), (IH _ Ha).
  - intros a. induction a as [|x a IH]; intros [|y b] [|z c]; cbn; try done.
    intros [Hx Ha]%andb_true_iff [Hy Hb]%andb_true_iff.
    by rewrite (cell_eqb_trans _ _ _ Hx Hy), (IH _ _ Ha Hb).
Qed.

Lemma dedupe_elem k l : k ∈ dedupe l -> k ∈ l.
Proof.
  revert k. induction l as [|x l IH]; intros k; [done|]. cbn.
  intros [->|Hk]%elem_of_cons; [apply list_elem_of_here|].
  apply list_elem_of_filter in Hk as [_ Hk].
  apply list_elem_of_further. by apply IH.
Qed.

Lemma dedupe_covers k l :
  k ∈ l -> ∃ k', k' ∈ dedupe l ∧ Summary.same_key k' k.
Proof.
  induction l as [|x l IH]; [by intros ?%elem_of_nil|]. cbn.
  intros [->|Hk]%elem_of_cons.
  - exists x. split; [apply list_elem_of_here|reflexivity].
  - destruct (IH Hk) as (k' & Hk' & Hsame).
    destruct (key_eqb x k') eqn:Hx.
    + exists x. split; [apply list_elem_of_here|]. by etrans.
    + exists k'. split; [|done].
      apply list_elem_of_further. by apply list_elem_of_filter.
Qed.

Lemma NoDupA_filter {A} (eqA : relation A) (P : A -> Prop)
    `{∀ x, Decision (P x)} (l : list A) :
  NoDupA eqA l -> NoDupA eqA (filter P l).
Proof.
  induction 1 as [|x l Hx Hl IH]; [constructor|].
  rewrite filter_cons. case_decide; [|done]. constructor; [|done].
  intros Hin. apply Hx. apply InA_alt in Hin as (y & Hxy & Hy).
  apply InA_alt. exists y. split; [done|].
  apply list_elem_of_In in Hy. apply list_elem_of_filter in Hy as [_ Hy].
  by apply list_elem_of_In.
Qed.

Lemma dedupe_NoDupA l : NoDupA Summary.same_key (dedupe l).
Proof.
  induction l as [|x l IH]; [constructor|]. cbn. constructor.
  - intros (y & Hxy & Hy)%InA_alt.
    apply list_elem_of_In in Hy. apply list_elem_of_filter in Hy as [Hne _].
    unfold Summary.same_key in Hxy. congruence.
  - by apply NoDupA_filter.
Qed.

Lemma groups_of_groups rk : Summary.groups_of (groups rk) rk.
Proof.
  unfold groups. set (l := filter _ rk).
  assert (Hp : sort key_leb (dedupe l) ≡ₚ dedupe l) by apply sort_perm.
  split; [|split].
  - intros k Hk. rewrite Hp in Hk. apply dedupe_elem in Hk.
    apply list_elem_of_filter in Hk as [? ?]. done.
  - intros k Hk Hna.
    destruct (dedupe_covers k l) as (k' & Hk' & Hsame);
      [by apply list_elem_of_filter|].
    exists k'. split; [by rewrite Hp|done].
  - eapply PermutationA_preserves_NoDupA; [apply _| |apply dedupe_NoDupA].
    apply Permutation_PermutationA; [apply _|]. by symmetry.
Qed.

Lemma groups_of_perm ks ks' rk :
  ks' ≡ₚ ks -> Summary.groups_of ks rk -> Summary.groups_of ks' rk.
Proof.
  intros Hp (H1 & H2 & H3). split; [|split].
  - intros k Hk. apply H1. by rewrite <- Hp.
  - intros k Hk Hna. destruct (H2 k Hk Hna) as (k' & ? & ?).
    exists k'. split; [by rewrite Hp|done].
  - eapply PermutationA_preserves_NoDupA; [apply _| |exact H3].
    apply Permutation_PermutationA; [apply _|]. by symmetry.
Qed.

Lemma row_keys_keys_of d by_ idx :
  Series.traverse (index_of_col d) by_ = Ok idx ->
  row_keys d idx = Summary.keys_of d by_.
Proof.
  intros Hidx%traverse_inv. unfold row_keys, Summary.keys_of.
  apply map_ext. intros r.
  induction Hidx as [|c i by_ idx Hc _ IH]; [done|]. cbn. rewrite IH. f_equal.
  unfold index_of_col in Hc. unfold Value.cell_of.
  destruct (Frame.index_of c (columns d)); by simplify_eq.
Qed.

(** *** Rounding keeps the order *)

Lemma rint_bounds x :
  (Qfloor x <= Series.rint x <= Qfloor x + 1)%Z.
Proof.
  unfold Series.rint. destruct (_ ?= _)%Q; [destruct (Z.even _)| |]; lia.
Qed.

Lemma rint_mono x y : (x <= y)%Q -> (Series.rint x <= Series.rint y)%Z.
Proof.
  intros Hxy. pose proof (Qfloor_resp_le _ _ Hxy) as Hf.
  destruct (decide (Qfloor x = Qfloor y)) as [Heq|Hne].
  - unfold Series.rint. rewrite <- Heq.
    destruct (Qcompare_spec (x - inject_Z (Qfloor x)) (1 # 2)) as [Hx|Hx|Hx];
      destruct (Qcompare_spec (y - inject_Z (Qfloor x)) (1 # 2)) as [Hy|Hy|Hy];
      try destruct (Z.even _); try lia; exfalso; lra.
  - pose proof (rint_bounds x). pose proof (rint_bounds y). lia.
Qed.

Lemma round_q_mono n p q :
  (q <= p)%Q -> (Series.round_q n q <= Series.round_q n p)%Q.
Proof.
  intros Hqp. unfold Series.round_q. rewrite !Qred_correct.
  assert (HP : (0 < inject_Z (10 ^ Z.of_nat n))%Q).
  { rewrite <- (Zlt_Qlt 0). apply Z.pow_pos_nonneg; lia. }
  unfold Qdiv. apply Qmult_le_compat_r.
  - rewrite <- Zle_Qle. apply rint_mono. by apply Qmult_le_compat_r, Qlt_le_weak.
  - by apply Qlt_le_weak, Qinv_lt_0_compat.
Qed.

Lemma round_keeps_order n a b :
  value_before a b = true ->
  value_before (Series.round_cell n a) (Series.round_cell n b) = true.
Proof.
  destruct a as [|p| |], b as [|q| |]; cbn; try done.
  rewrite !Qle_bool_iff. apply round_q_mono.
Qed.

Lemma round_descending n g :
  Summary.descending g -> Summary.descending (round n g).
Proof.
  unfold Summary.descending, round.
  induction 1 as [|e g Hg IH Hhd]; [constructor|]. cbn.
  constructor; [done|].
  destruct Hhd as [|e' g Hee']; constructor. cbn. by apply round_keeps_order.
Qed.

End GroupFacts.

(** ** The summaries of the reporter and of the dashboard *)

Module ReporterFacts.
Import Group FrameFacts SeriesFacts GroupFacts.

Lemma fst_round n g : map fst (round n g) = map fst g.
Proof. unfold round. rewrite map_map. by apply map_ext. Qed.

Lemma fst_per_group f rk vs : map fst (Summary.per_group f rk vs) = groups rk.
Proof. unfold Summary.per_group. rewrite map_map. apply map_id. Qed.

Lemma per_group_elem f rk vs k v :
  (k, v) ∈ Summary.per_group f rk vs -> v = f (members k rk vs).
Proof.
  unfold Summary.per_group. intros (k' & [= -> ->] & _)%list_elem_of_fmap. done.
Qed.

(** a table sorted by value: one entry per group, each with the group's
    summary, in descending order *)
Lemma sorted_per_group f rk vs :
  let full := sort_values_desc (Summary.per_group f rk vs) in
  Summary.groups_of (map fst full) rk
  ∧ (∀ k v, (k, v) ∈ full -> v = f (members k rk vs))
  ∧ Summary.descending full.
Proof.
  intros full. split; [|split].
  - apply (groups_of_perm (groups rk)); [|apply groups_of_groups].
    unfold full. by rewrite sort_values_desc_perm, fst_per_group.
  - intros k v Hin. unfold full in Hin. rewrite sort_values_desc_perm in Hin.
    by apply per_group_elem in Hin.
  - apply sort_values_desc_sorted.
Qed.

Lemma issubset_true need cols :
  (∀ c, c ∈ need -> c ∈ cols) -> Reporter.issubset need cols = true.
Proof.
  intros Hall. unfold Reporter.issubset. apply forallb_forall.
  intros c Hc%list_elem_of_In. by apply has_elem, Hall.
Qed.

(** C6: on a table that has the neighbourhood_group and price columns,
    price holding numbers and missing values, the group-average
    computation returns one entry per neighbourhood group, its value the
    arithmetic mean of the group's present prices rounded to 2 decimals
    (missing when the group has no present price), the entries in
    descending order of value.  Tab 2 of the dashboard computes the same
    series.  For the rows (A,10), (A,20), (B,30) the result is B: 30.0,
    A: 15.0, in this order. *)
Theorem avg_price_by_group d :
  "neighbourhood_group" ∈ columns d ->
  "price" ∈ columns d ->
  forallb Value.comparable (Frame.col d "price") = true ->
  let rk := Summary.keys_of d ["neighbourhood_group"] in
  let vs := Frame.col d "price" in
  ∃ g, Reporter.avg_price_by_neighbourhood_group d = Ok g
    ∧ Dashboard.tab2 d = Some (Ok g)
    ∧ Summary.groups_of (map fst g) rk
    ∧ (∀ k v, (k, v) ∈ g ->
         v = Series.round_cell 2 (Summary.mean_value (members k rk vs)))
    ∧ Summary.descending g
    ∧ Reporter.avg_price_by_neighbourhood_group Samples.three_prices
      = Ok [([Str "B"], Num 30); ([Str "A"], Num 15)].
Proof.
  intros Hng Hp Hcmp rk vs.
  pose proof Hng as [i Hi]%has_elem%has_true.
  pose proof Hp as [j Hj]%has_elem%has_true.
  assert (Hidx : Series.traverse (index_of_col d) ["neighbourhood_group"] = Ok [i]).
  { cbn. by rewrite (index_of_col_run _ _ i Hi). }
  assert (Hagg : agg Series.mean d ["neighbourhood_group"] "price"
                 = Ok (Summary.per_group Summary.mean_value rk vs)).
  { unfold rk. rewrite <- (row_keys_keys_of _ _ _ Hidx).
    apply (agg_run _ _ _ _ _ _ j Hidx Hj).
    intros k. by apply mean_run, members_comparable. }
  assert (Hsub : Reporter.issubset ["neighbourhood_group"; "price"] (columns d) = true).
  { apply issubset_true. intros c [->|Hc]%elem_of_cons; [done|].
    by apply list_elem_of_singleton in Hc as ->. }
  destruct (sorted_per_group Summary.mean_value rk vs) as (Hg & He & Hs).
  eexists. split; [|split; [|split; [|split; [|split]]]].
  - unfold Reporter.avg_price_by_neighbourhood_group. rewrite Hsub, Hagg. done.
  - unfold Dashboard.tab2. by rewrite Hsub, Hagg.
  - by rewrite fst_round.
  - intros k v (e & [= -> ->] & He')%list_elem_of_fmap.
    f_equal. apply He. by destruct e.
  - by apply round_descending.
  - by vm_compute.
Qed.

Lemma avg_price_by_group_witness :
  ∃ g, Reporter.avg_price_by_neighbourhood_group Samples.three_prices = Ok g
    ∧ Summary.descending g.
Proof.
  destruct (avg_price_by_group Samples.three_prices)
    as (g & Hg & _ & _ & _ & Hs & _).
  - by apply has_elem.
  - by apply has_elem.
  - reflexivity.
  - by exists g.
Defined.

(** C7: on a table that has the host_id, host_name and id columns, and
    for every N that is not negative, the top-hosts computation returns
    the first N entries of the table that has one entry per
    (host_id, host_name) pair, its value the number of present ids of the
    pair, in descending order of value; the default N is 10, and the
    dashboard's panel takes the first 15.  For hosts with 3, 5 and 1
    listings the top 2 are H2, then H1. *)
Theorem top_hosts_counts d n :
  "host_id" ∈ columns d ->
  "host_name" ∈ columns d ->
  "id" ∈ columns d ->
  (0 <= n)%Z ->
  let rk := Summary.keys_of d ["host_id"; "host_name"] in
  let vs := Frame.col d "id" in
  ∃ full,
    Summary.groups_of (map fst full) rk
    ∧ (∀ k v, (k, v) ∈ full -> v = Summary.count_value (members k rk vs))
    ∧ Summary.descending full
    ∧ Reporter.top_hosts d n = Ok (take (Z.to_nat n) full)
    ∧ Dashboard.top d = Some (Ok (take 15 full))
    ∧ Reporter.top_hosts_default_n = 10%Z
    ∧ Reporter.top_hosts Samples.nine_listings 2
      = Ok [([Str "H2"; Str "host H2"], Num 5);
            ([Str "H1"; Str "host H1"], Num 3)].
Proof.
  intros Hh Hn Hid Hpos rk vs.
  pose proof Hh as [i Hi]%has_elem%has_true.
  pose proof Hn as [j Hj]%has_elem%has_true.
  pose proof Hid as [l Hl]%has_elem%has_true.
  assert (Hidx : Series.traverse (index_of_col d) ["host_id"; "host_name"]
                 = Ok [i; j]).
  { cbn. by rewrite (index_of_col_run _ _ i Hi), (index_of_col_run _ _ j Hj). }
  assert (Hagg : agg Series.count d ["host_id"; "host_name"] "id"
                 = Ok (Summary.per_group Summary.count_value rk vs)).
  { unfold rk. rewrite <- (row_keys_keys_of _ _ _ Hidx).
    by apply (agg_run _ _ _ _ _ _ l Hidx Hl). }
  assert (Hsub : Reporter.issubset ["host_id"; "host_name"; "id"] (columns d) = true).
  { apply issubset_true. intros c [->|[->|Hc]%elem_of_cons]%elem_of_cons; [done..|].
    by apply list_elem_of_singleton in Hc as ->. }
  destruct (sorted_per_group Summary.count_value rk vs) as (Hg & He & Hs).
  eexists. split; [exact Hg|]. split; [exact He|]. split; [exact Hs|].
  split; [|split; [|split]].
  - unfold Reporter.top_hosts. rewrite Hsub, Hagg. cbn [mbind result_bind].
    unfold head. by rewrite (proj2 (Z.leb_le 0 n) Hpos).
  - unfold Dashboard.top. by rewrite Hsub, Hagg.
  - done.
  - by vm_compute.
Qed.

Lemma top_hosts_counts_witness :
  Reporter.top_hosts Samples.nine_listings 2
  = Ok [([Str "H2"; Str "host H2"], Num 5); ([Str "H1"; Str "host H1"], Num 3)].
Proof.
  destruct (top_hosts_counts Samples.nine_listings 2)
    as (full & _ & _ & _ & _ & _ & _ & Hex).
  - by apply has_elem.
  - by apply has_elem.
  - by apply has_elem.
  - lia.
  - exact Hex.
Defined.

End ReporterFacts.
